(** * midi-proxy: the SysEx device and its client, embedded in Rocq

    Shallow embedding of [device/device.py] and [client/client.py].
    Python integers are [Z], MIDI messages are [list Z], text is [string].
    Code that calls into the MIDI library, the file system or the console is
    written in a state-and-exception monad over a record holding what those
    collaborators can observe. *)

From Stdlib Require Import ZArith List String Ascii Bool Lia.
From Stdlib Require Import DecimalString HexadecimalString.
From Stdlib Require Import QArith Lqa.
Import ListNotations.

Local Open Scope list_scope.
Local Open Scope string_scope.
Local Open Scope Z_scope.

(** ** Python primitives *)

Module Py.

(** The exceptions the two source files can meet.  [OSError] is what
    [except IOError] catches ([IOError] is an alias of [OSError]);
    [RtMidiError] is the MIDI library's error class caught by
    [except rtmidi.RtMidiError]. *)
Inductive Exn : Type :=
| IndexError
| OSError (msg : string)
| RtMidiError (msg : string).

Inductive Outcome (A : Type) : Type :=
| Returned (a : A)
| Raised (e : Exn).
Arguments Returned {A} a.
Arguments Raised {A} e.

(** A computation over a state [S] ends with a value or an exception; the
    state reached is kept in both cases (nothing is rolled back). *)
Definition M (S A : Type) : Type := S -> Outcome A * S.

Definition ret {S A} (a : A) : M S A := fun s => (Returned a, s).

Definition raise {S A} (e : Exn) : M S A := fun s => (Raised e, s).

Definition bind {S A B} (m : M S A) (k : A -> M S B) : M S B :=
  fun s => match m s with
           | (Returned a, s') => k a s'
           | (Raised e, s') => (Raised e, s')
           end.

Definition gets {S A} (f : S -> A) : M S A := fun s => (Returned (f s), s).

Definition modify {S} (f : S -> S) : M S unit := fun s => (Returned tt, f s).

(** [try: body except <class> as e: handler], the class given by the
    partial function [sel] from exceptions to what the handler binds. *)
Definition try_except {S A E} (body : M S A) (sel : Exn -> option E)
    (handler : E -> M S A) : M S A :=
  fun s => match body s with
           | (Returned a, s') => (Returned a, s')
           | (Raised e, s') =>
               match sel e with
               | Some x => handler x s'
               | None => (Raised e, s')
               end
           end.

Definition is_IOError (e : Exn) : option string :=
  match e with OSError msg => Some msg | _ => None end.

Definition is_RtMidiError (e : Exn) : option string :=
  match e with RtMidiError msg => Some msg | _ => None end.

(** Short-circuit [and] / [or] over operands that may raise. *)
Definition and_ {S} (a b : M S bool) : M S bool :=
  bind a (fun x => if x then b else ret false).

Definition or_ {S} (a b : M S bool) : M S bool :=
  bind a (fun x => if x then ret true else b).

(** [l[i]]: a negative index counts from the end; out of range raises. *)
Definition index {A} (l : list A) (i : Z) : option A :=
  let n := Z.of_nat (List.length l) in
  let j := if i <? 0 then i + n else i in
  if (0 <=? j) && (j <? n) then nth_error l (Z.to_nat j) else None.

Definition getitem {S A} (l : list A) (i : Z) : M S A :=
  match index l i with
  | Some x => ret x
  | None => raise IndexError
  end.

Definition len {A} (l : list A) : Z := Z.of_nat (List.length l).

(** [str(n)] and [hex(n)] of an integer. *)
Definition str (n : Z) : string :=
  DecimalString.NilZero.string_of_int (Z.to_int n).

Definition hex (n : Z) : string :=
  if n <? 0
  then "-0x" ++ HexadecimalString.NilZero.string_of_uint (N.to_hex_uint (Z.abs_N n))
  else "0x" ++ HexadecimalString.NilZero.string_of_uint (N.to_hex_uint (Z.abs_N n)).

Fixpoint join (sep : string) (l : list string) : string :=
  match l with
  | [] => ""
  | [x] => x
  | x :: t => x ++ sep ++ join sep t
  end.

(** [str(l)] of a list of integers, as an f-string renders it. *)
Definition str_list (l : list Z) : string :=
  "[" ++ join ", " (map str l) ++ "]".

(** [needle in hay] on strings. *)
Fixpoint contains (needle hay : string) : bool :=
  String.prefix needle hay ||
  match hay with
  | EmptyString => false
  | String _ t => contains needle t
  end.

Definition newline : string := String (ascii_of_nat 10) EmptyString.

End Py.

Import Py.

Declare Scope py_scope.
Delimit Scope py_scope with py.
Notation "x <- m ;; k" := (bind m (fun x => k))
  (at level 61, m at next level, right associativity) : py_scope.
Notation "m ;;; k" := (bind m (fun _ => k))
  (at level 61, right associativity) : py_scope.
Local Open Scope py_scope.

(** ** device/device.py *)

Module device.

Definition SYSEX_START : Z := 0xF0.
Definition SYSEX_END : Z := 0xF7.
Definition UNIVERSAL_NON_REALTIME_SYSEX : Z := 0x7E.
Definition GENERAL_INFORMATION : Z := 0x06.
Definition IDENTITY_REQUEST : Z := 0x01.
Definition IDENTITY_REPLY : Z := 0x02.
Definition MANUFACTURER_ID : Z := 0x7D.
Definition DEVICE_ID_SYSEX : Z := 0x01.
Definition COMMAND_TRIGGER_ACTION : Z := 0x03.
Definition ACTION_ID_LOG : Z := 0x01.
Definition LOG_FILE_NAME : string := "device_actions.log".

(** What [on_midi_message] and its handlers can touch: the output port
    [self.midi_out], the log file and the console.
    - [out_open] is what [midi_out.is_port_open()] answers;
    - [out_fault], when set, is the exception [midi_out.send_message] raises
      (the MIDI library's system error is an [OSError], its other errors are
      not); otherwise the message joins [out_sent];
    - [log_fault], when set, is the text of the [IOError] met on opening or
      writing the log file; otherwise the text written joins [log_file], whose
      concatenation is the file's content;
    - [console] holds the lines printed. *)
Record Device : Type := mkDevice {
  out_open : bool;
  out_fault : option Exn;
  out_sent : list (list Z);
  log_fault : option string;
  log_file : list string;
  console : list string
}.

Definition print (line : string) : M Device unit :=
  modify (fun d => mkDevice (out_open d) (out_fault d) (out_sent d)
                            (log_fault d) (log_file d) (console d ++ [line])).

Definition midi_out_is_port_open : M Device bool := gets out_open.

Definition midi_out_send_message (message : list Z) : M Device unit :=
  fault <- gets out_fault ;;
  match fault with
  | Some e => raise e
  | None =>
      modify (fun d => mkDevice (out_open d) (out_fault d)
                                (out_sent d ++ [message])
                                (log_fault d) (log_file d) (console d))
  end.

(** [with open(LOG_FILE_NAME, "a") as f: f.write(content)] *)
Definition log_file_append (content : string) : M Device unit :=
  fault <- gets log_fault ;;
  match fault with
  | Some msg => raise (OSError msg)
  | None =>
      modify (fun d => mkDevice (out_open d) (out_fault d) (out_sent d)
                                (log_fault d) (log_file d ++ [content])
                                (console d))
  end.

Definition send_midi_message (message : list Z) : M Device unit :=
  opened <- midi_out_is_port_open ;;
  if opened then
    midi_out_send_message message ;;;
    print ("Device: Sent MIDI: " ++ str_list message)
  else
    print "Device: Output port not open. Cannot send message.".

Definition reply_message : list Z :=
  [ SYSEX_START;
    UNIVERSAL_NON_REALTIME_SYSEX;
    0x7F;
    GENERAL_INFORMATION;
    IDENTITY_REPLY;
    MANUFACTURER_ID;
    0x01; 0x01;
    0x01; 0x01;
    0x01; 0x01; 0x01; 0x01;
    SYSEX_END ].

Definition _handle_identity_request (message_bytes : list Z) : M Device unit :=
  print "Device: Received Identity Request." ;;;
  send_midi_message reply_message.

Definition log_content (action_id : Z) (original_message : list Z) : string :=
  "TriggerAction: ID=" ++ str action_id ++ ", FullMsg="
    ++ str_list original_message ++ newline.

Definition _handle_trigger_action (action_id : Z) (original_message : list Z)
    : M Device unit :=
  print ("Device: Handling Trigger Action, Action ID: " ++ str action_id) ;;;
  if action_id =? ACTION_ID_LOG then
    try_except
      (log_file_append (log_content action_id original_message) ;;;
       print ("Device: Logged action to " ++ LOG_FILE_NAME) ;;;
       send_midi_message original_message)
      is_IOError
      (fun e => print ("Device: Error writing to log file " ++ LOG_FILE_NAME
                         ++ ": " ++ e))
  else
    print ("Device: Unknown Action ID for Trigger Action: " ++ str action_id).

Definition _handle_custom_sysex (message_bytes : list Z) : M Device unit :=
  print ("Device: Received Custom SysEx: " ++ str_list message_bytes) ;;;
  reject <- or_ (ret (len message_bytes <? 5))
              (or_ (b <- getitem message_bytes 1 ;;
                    ret (negb (b =? MANUFACTURER_ID)))
                   (b <- getitem message_bytes 2 ;;
                    ret (negb (b =? DEVICE_ID_SYSEX)))) ;;
  if reject then
    print "Device: Custom SysEx not for this device or malformed."
  else
    command_id <- getitem message_bytes 3 ;;
    if command_id =? COMMAND_TRIGGER_ACTION then
      if 6 <=? len message_bytes then
        action_id <- getitem message_bytes 4 ;;
        _handle_trigger_action action_id message_bytes
      else
        print "Device: Trigger Action SysEx too short for Action ID."
    else
      print ("Device: Unknown custom SysEx command ID: " ++ str command_id).

(** [on_midi_message(message_tuple, data)]: only [message_bytes], the first
    component of [message_tuple], is used. *)
Definition on_midi_message (message_bytes : list Z) : M Device unit :=
  match message_bytes with
  | [] => ret tt
  | _ =>
    status_byte <- getitem message_bytes 0 ;;
    sysex <- and_ (ret (status_byte =? SYSEX_START))
                  (b <- getitem message_bytes (-1) ;; ret (b =? SYSEX_END)) ;;
    if sysex then
      identity <-
        and_ (ret (len message_bytes =? 6))
        (and_ (b <- getitem message_bytes 0 ;; ret (b =? SYSEX_START))
        (and_ (b <- getitem message_bytes 1 ;;
               ret (b =? UNIVERSAL_NON_REALTIME_SYSEX))
        (and_ (b <- getitem message_bytes 3 ;; ret (b =? GENERAL_INFORMATION))
        (and_ (b <- getitem message_bytes 4 ;; ret (b =? IDENTITY_REQUEST))
              (b <- getitem message_bytes 5 ;; ret (b =? SYSEX_END)))))) ;;
      if identity then
        _handle_identity_request message_bytes
      else
        custom <- and_ (b <- getitem message_bytes 1 ;;
                        ret (b =? MANUFACTURER_ID))
                       (b <- getitem message_bytes 2 ;;
                        ret (b =? DEVICE_ID_SYSEX)) ;;
        if custom then
          _handle_custom_sysex message_bytes
        else
          print ("Device: Unrecognized or non-targeted SysEx: "
                   ++ str_list message_bytes)
    else if (0x80 <=? status_byte) && (status_byte <=? 0xEF) then
      let message_type := Z.land status_byte 0xF0 in
      let channel := Z.land status_byte 0x0F + 1 in
      if message_type =? 0x90 then
        note <- getitem message_bytes 1 ;;
        vel <- getitem message_bytes 2 ;;
        print ("Device: Note On (Ch: " ++ str channel ++ ", Note: "
                 ++ str note ++ ", Vel: " ++ str vel ++ ")")
      else if message_type =? 0x80 then
        note <- getitem message_bytes 1 ;;
        vel <- getitem message_bytes 2 ;;
        print ("Device: Note Off (Ch: " ++ str channel ++ ", Note: "
                 ++ str note ++ ", Vel: " ++ str vel ++ ")")
      else if message_type =? 0xB0 then
        cc <- getitem message_bytes 1 ;;
        val <- getitem message_bytes 2 ;;
        print ("Device: Control Change (Ch: " ++ str channel ++ ", CC: "
                 ++ str cc ++ ", Val: " ++ str val ++ ")")
      else
        print ("Device: Other Channel Message (Type: " ++ hex message_type
                 ++ ", Ch: " ++ str channel ++ "): " ++ str_list message_bytes)
    else if 0xF0 <=? status_byte then
      print ("Device: System Common Message: " ++ str_list message_bytes)
    else
      print ("Device: Unknown or malformed message: " ++ str_list message_bytes)
  end.

(** The transport calls [on_midi_message] once per inbound message, in
    order; an exception escaping the callback ends that call only. *)
Fixpoint deliver_all (messages : list (list Z)) (d : Device) : Device :=
  match messages with
  | [] => d
  | message_bytes :: rest =>
      deliver_all rest (snd (on_midi_message message_bytes d))
  end.

(** *** Frames of the wire format *)

(** [F0 7E <device id> 06 01 F7] *)
Definition identity_request (device_id : Z) : list Z :=
  [ SYSEX_START; UNIVERSAL_NON_REALTIME_SYSEX; device_id;
    GENERAL_INFORMATION; IDENTITY_REQUEST; SYSEX_END ].

(** [F0 7D <device id> <command id> <payload...> F7] *)
Definition custom_sysex (device_id command_id : Z) (payload : list Z)
    : list Z :=
  [ SYSEX_START; MANUFACTURER_ID; device_id; command_id ]
    ++ payload ++ [ SYSEX_END ].

(** [F0 7D 01 03 <action id> F7], possibly with bytes after the action id. *)
Definition trigger_action (action_id : Z) (extra : list Z) : list Z :=
  custom_sysex DEVICE_ID_SYSEX COMMAND_TRIGGER_ACTION (action_id :: extra).

(** What one inbound message [m] can add to the messages sent: nothing, the
    Identity Reply (for an Identity Request frame), or an echo of [m] itself
    (for a frame carrying the manufacturer id). *)
Inductive answer (m : list Z) (before after : list (list Z)) : Prop :=
| answer_none : after = before -> answer m before after
| answer_identity :
    (exists device_id, m = identity_request device_id) ->
    after = (before ++ [reply_message])%list -> answer m before after
| answer_echo :
    nth_error m 1 = Some MANUFACTURER_ID ->
    after = (before ++ [m])%list -> answer m before after.

(** A device after [__init__] when both virtual ports opened: the output
    port is open, nothing has been sent, the log file has been removed. *)
Definition started : Device := mkDevice true None [] None [] [].

End device.

(** ** client/client.py *)

Module client.

Definition SYSEX_START : Z := 0xF0.
Definition SYSEX_END : Z := 0xF7.
Definition UNIVERSAL_NON_REALTIME_SYSEX : Z := 0x7E.
Definition GENERAL_INFORMATION : Z := 0x06.
Definition IDENTITY_REQUEST_MSG_ID : Z := 0x01.
Definition MANUFACTURER_ID : Z := 0x7D.
Definition DEVICE_ID_CLIENT_TARGETS : Z := 0x01.
Definition COMMAND_SET_PARAMETER : Z := 0x01.
Definition COMMAND_GET_PARAMETER : Z := 0x02.
Definition COMMAND_TRIGGER_ACTION : Z := 0x03.

(** *** The MIDI library's port objects, as the client uses them

    [rtmidi.MidiIn] and [rtmidi.MidiOut] are not part of the repository.  A
    port object is modelled by what the client can observe of it: the names
    [get_ports()] lists, what the port is bound to, and the calls made on it
    so far (as the unit tests' mocks record them).  Whether a call raises
    [RtMidiError] is left to the port's [faulty] oracle, which sees the
    calls made before. *)

Inductive Call : Type :=
| open_virtual_port (name : string)
| open_port (i : nat)
| close_port
| get_ports
| is_port_open
| set_callback
| send_message (message : list Z).

Inductive Binding : Type :=
| Virtual (name : string)
| Port (i : nat).

Record MidiPort : Type := mkMidiPort {
  port_names : list string;
  bound : option Binding;
  calls : list Call;
  faulty : list Call -> Call -> option string
}.

Definition record_call (c : Call) (p : MidiPort) : MidiPort :=
  mkMidiPort (port_names p) (bound p) (calls p ++ [c]) (faulty p).

Definition set_bound (b : option Binding) (p : MidiPort) : MidiPort :=
  mkMidiPort (port_names p) b (calls p) (faulty p).

(** A call that may raise: it is recorded, then either raises or takes
    effect. *)
Definition invoke (c : Call) (effect : MidiPort -> MidiPort) : M MidiPort unit :=
  fun p =>
    match faulty p (calls p) c with
    | Some msg => (Raised (RtMidiError msg), record_call c p)
    | None => (Returned tt, effect (record_call c p))
    end.

(** A query: it is recorded and answers from the port's state. *)
Definition query {A} (c : Call) (answer : MidiPort -> A) : M MidiPort A :=
  fun p => (Returned (answer p), record_call c p).

Definition do_open_virtual_port (name : string) : M MidiPort unit :=
  invoke (open_virtual_port name) (set_bound (Some (Virtual name))).

Definition do_open_port (i : nat) : M MidiPort unit :=
  invoke (open_port i) (set_bound (Some (Port i))).

Definition do_close_port : M MidiPort unit :=
  invoke close_port (set_bound None).

Definition do_send_message (message : list Z) : M MidiPort unit :=
  invoke (send_message message) (fun p => p).

Definition do_get_ports : M MidiPort (list string) :=
  query get_ports port_names.

Definition do_is_port_open : M MidiPort bool :=
  query is_port_open
        (fun p => match bound p with Some _ => true | None => false end).

Definition do_set_callback : M MidiPort unit :=
  query set_callback (fun _ => tt).

(** *** The client object

    The client's [print] calls format exception texts and lists of port
    names for the console, which the client never reads back; the console is
    not part of the client's modelled state. *)

Record Client : Type := mkClient {
  client_port_name : string;
  midi_in : MidiPort;
  midi_out : MidiPort;
  target_device_in_port_name : option string;
  target_device_out_port_name : option string;
  _received_messages : list (list Z)
}.

Definition on_midi_in {A} (op : M MidiPort A) : M Client A :=
  fun c =>
    let (r, p) := op (midi_in c) in
    (r, mkClient (client_port_name c) p (midi_out c)
                 (target_device_in_port_name c)
                 (target_device_out_port_name c) (_received_messages c)).

Definition on_midi_out {A} (op : M MidiPort A) : M Client A :=
  fun c =>
    let (r, p) := op (midi_out c) in
    (r, mkClient (client_port_name c) (midi_in c) p
                 (target_device_in_port_name c)
                 (target_device_out_port_name c) (_received_messages c)).

Definition set_targets (i o : string) (c : Client) : Client :=
  mkClient (client_port_name c) (midi_in c) (midi_out c)
           (Some i) (Some o) (_received_messages c).

Definition set_received_messages (l : list (list Z)) (c : Client) : Client :=
  mkClient (client_port_name c) (midi_in c) (midi_out c)
           (target_device_in_port_name c) (target_device_out_port_name c) l.

Definition _open_client_ports : M Client unit :=
  name <- gets client_port_name ;;
  try_except (on_midi_in (do_open_virtual_port (name ++ " In")))
             is_RtMidiError (fun _ => ret tt) ;;;
  try_except (on_midi_out (do_open_virtual_port (name ++ " Out")))
             is_RtMidiError (fun _ => ret tt) ;;;
  opened <- on_midi_in do_is_port_open ;;
  if opened then on_midi_in do_set_callback else ret tt.

Definition _on_midi_message (message_bytes : list Z) : M Client unit :=
  modify (fun c => set_received_messages (_received_messages c ++ [message_bytes]) c).

(** The first loop of [connect_to_device], over [enumerate(available_ports)]
    from index [i] on; the answer is [connected_out]. *)
Fixpoint connect_out_loop (target : string) (i : nat) (ports : list string)
    : M Client bool :=
  match ports with
  | [] => ret false
  | port_name :: rest =>
      if contains target port_name then
        connected <-
          try_except (on_midi_out do_close_port ;;;
                      on_midi_out (do_open_port i) ;;;
                      ret true)
                     is_RtMidiError (fun _ => ret false) ;;
        if connected then ret true
        else connect_out_loop target (S i) rest
      else connect_out_loop target (S i) rest
  end.

(** The second loop, over [enumerate(available_ports_in)]; the answer is
    [connected_in]. *)
Fixpoint connect_in_loop (target : string) (i : nat) (ports : list string)
    : M Client bool :=
  match ports with
  | [] => ret false
  | port_name :: rest =>
      if contains target port_name then
        connected <-
          try_except (on_midi_in do_close_port ;;;
                      on_midi_in (do_open_port i) ;;;
                      on_midi_in do_set_callback ;;;
                      ret true)
                     is_RtMidiError (fun _ => ret false) ;;
        if connected then ret true
        else connect_in_loop target (S i) rest
      else connect_in_loop target (S i) rest
  end.

(** [# Connect client's output to device's input port] *)
Definition outbound_leg (substr : string) : M Client bool :=
  available_ports <- on_midi_out do_get_ports ;;
  connect_out_loop substr 0 available_ports.

(** [# Connect client's input to device's output port] *)
Definition inbound_leg (substr : string) : M Client bool :=
  available_ports_in <- on_midi_in do_get_ports ;;
  connect_in_loop substr 0 available_ports_in.

Definition connect_to_device
    (device_in_port_name_substr device_out_port_name_substr : string)
    : M Client bool :=
  modify (set_targets device_in_port_name_substr
                      device_out_port_name_substr) ;;;
  connected_out <- outbound_leg device_in_port_name_substr ;;
  if negb connected_out then ret false
  else
    connected_in <- inbound_leg device_out_port_name_substr ;;
    if negb connected_in then
      _open_client_ports ;;;
      ret false
    else ret (connected_out && connected_in).

Definition send_midi_message (message_list : list Z) : M Client unit :=
  opened <- on_midi_out do_is_port_open ;;
  if opened then on_midi_out (do_send_message message_list) else ret tt.

(** *** The inbox

    [pop_received_message] polls the wall clock.  [time_time k] is what the
    call number [k] of [time.time()] answers (counting from 0, the reading
    kept as [start_time]), in seconds, as an exact rational; [delivered k] are
    the frames the transport's thread hands to [_on_midi_message] while the
    caller sleeps after reading number [k].  The loop is run on fuel: [None]
    means the fuel ran out before the loop ended. *)
Section Polling.

Variable time_time : nat -> Q.
Variable delivered : nat -> list (list Z).

Fixpoint pop_loop (fuel : nat) (start_time timeout_sec : Q) (k : nat)
    (c : Client) : option (option (list Z) * Client) :=
  match fuel with
  | O => None
  | S fuel' =>
      if Qlt_le_dec (time_time k - start_time)%Q timeout_sec then
        match _received_messages c with
        | first :: rest => Some (Some first, set_received_messages rest c)
        | [] =>
            pop_loop fuel' start_time timeout_sec (S k)
              (set_received_messages
                 (_received_messages c ++ delivered k) c)
        end
      else Some (None, c)
  end.

Definition pop_received_message (fuel : nat) (timeout_sec : Q) (c : Client)
    : option (option (list Z) * Client) :=
  let start_time := time_time 0 in
  pop_loop fuel start_time timeout_sec 1 c.

End Polling.

Definition clear_received_messages : M Client unit :=
  modify (set_received_messages []).

Definition send_identity_request : M Client unit :=
  send_midi_message
    [ SYSEX_START; UNIVERSAL_NON_REALTIME_SYSEX; 0x7F;
      GENERAL_INFORMATION; IDENTITY_REQUEST_MSG_ID; SYSEX_END ].

Definition send_set_parameter (parameter_id parameter_value : Z)
    : M Client unit :=
  send_midi_message
    [ SYSEX_START; MANUFACTURER_ID; DEVICE_ID_CLIENT_TARGETS;
      COMMAND_SET_PARAMETER; parameter_id; parameter_value; SYSEX_END ].

Definition send_get_parameter (parameter_id : Z) : M Client unit :=
  send_midi_message
    [ SYSEX_START; MANUFACTURER_ID; DEVICE_ID_CLIENT_TARGETS;
      COMMAND_GET_PARAMETER; parameter_id; SYSEX_END ].

Definition send_trigger_action (action_id : Z) : M Client unit :=
  send_midi_message
    [ SYSEX_START; MANUFACTURER_ID; DEVICE_ID_CLIENT_TARGETS;
      COMMAND_TRIGGER_ACTION; action_id; SYSEX_END ].

(** [Client.__init__]: the two port objects are created, the inbox is
    empty, and the client's own virtual ports are opened.  The port objects
    are given with the names the system lists and their oracles. *)
Definition fresh_port (names : list string)
    (oracle : list Call -> Call -> option string) : MidiPort :=
  mkMidiPort names None [] oracle.

Definition __init__ (client_port_name : string) (p_in p_out : MidiPort)
    : Client :=
  snd (_open_client_ports (mkClient client_port_name p_in p_out None None [])).

(** No name of [names] contains [substr]. *)
Definition no_match (substr : string) (names : list string) : bool :=
  forallb (fun name => negb (contains substr name)) names.

(** The oracle of a port on which no call raises. *)
Definition never_raises (_ : list Call) (_ : Call) : option string := None.

End client.

(** ** The rest of device/device.py: the device object's life cycle *)

Module device_object.

Import client.

(** The device object with its two port objects, which are the MIDI
    library's and are modelled as for the client.  [has_midi_in] and
    [has_midi_out] say whether the attribute still exists ([shutdown] deletes
    it with [del]); the port object is kept in the record after that, so that
    the calls made on it stay visible.  [log_exists] is what
    [os.path.exists(LOG_FILE_NAME)] answers, and [remove_fault], when set, is
    the text of the [OSError] that [os.remove] raises.  The [print] calls
    are left out, as for the client. *)
Record DeviceObject : Type := mkDeviceObject {
  port_name : string;
  midi_in : MidiPort;
  midi_out : MidiPort;
  has_midi_in : bool;
  has_midi_out : bool;
  shutdown_flag : bool;
  log_exists : bool;
  remove_fault : option string
}.

Definition on_midi_in {A} (op : M MidiPort A) : M DeviceObject A :=
  fun o =>
    let (r, p) := op (midi_in o) in
    (r, mkDeviceObject (port_name o) p (midi_out o) (has_midi_in o)
                       (has_midi_out o) (shutdown_flag o) (log_exists o)
                       (remove_fault o)).

Definition on_midi_out {A} (op : M MidiPort A) : M DeviceObject A :=
  fun o =>
    let (r, p) := op (midi_out o) in
    (r, mkDeviceObject (port_name o) (midi_in o) p (has_midi_in o)
                       (has_midi_out o) (shutdown_flag o) (log_exists o)
                       (remove_fault o)).

Definition set_shutdown_flag (b : bool) (o : DeviceObject) : DeviceObject :=
  mkDeviceObject (port_name o) (midi_in o) (midi_out o) (has_midi_in o)
                 (has_midi_out o) b (log_exists o) (remove_fault o).

Definition del_midi_in (o : DeviceObject) : DeviceObject :=
  mkDeviceObject (port_name o) (midi_in o) (midi_out o) false
                 (has_midi_out o) (shutdown_flag o) (log_exists o)
                 (remove_fault o).

Definition del_midi_out (o : DeviceObject) : DeviceObject :=
  mkDeviceObject (port_name o) (midi_in o) (midi_out o) (has_midi_in o)
                 false (shutdown_flag o) (log_exists o) (remove_fault o).

Definition set_log_exists (b : bool) (o : DeviceObject) : DeviceObject :=
  mkDeviceObject (port_name o) (midi_in o) (midi_out o) (has_midi_in o)
                 (has_midi_out o) (shutdown_flag o) b (remove_fault o).

(** [os.remove(LOG_FILE_NAME)] *)
Definition os_remove_log : M DeviceObject unit :=
  fault <- gets remove_fault ;;
  match fault with
  | Some msg => raise (OSError msg)
  | None => modify (set_log_exists false)
  end.

Definition _setup_ports : M DeviceObject unit :=
  name <- gets port_name ;;
  try_except
    (on_midi_in (do_open_virtual_port (name ++ " In")))
    is_RtMidiError
    (fun _ =>
       available_ports_in <- on_midi_in do_get_ports ;;
       match available_ports_in with
       | _ :: _ =>
           try_except (on_midi_in (do_open_port 0))
                      is_RtMidiError (fun _ => ret tt)
       | [] => ret tt
       end) ;;;
  try_except
    (on_midi_out (do_open_virtual_port (name ++ " Out")))
    is_RtMidiError
    (fun _ =>
       available_ports_out <- on_midi_out do_get_ports ;;
       match available_ports_out with
       | _ :: _ =>
           try_except (on_midi_out (do_open_port 0))
                      is_RtMidiError (fun _ => ret tt)
       | [] => ret tt
       end) ;;;
  opened <- on_midi_in do_is_port_open ;;
  if opened then on_midi_in do_set_callback else ret tt.

(** [Device.__init__], given the two fresh port objects and the state of the
    log file. *)
Definition __init__ (port_name : string) (p_in p_out : MidiPort)
    (log_exists : bool) (remove_fault : option string)
    : Outcome unit * DeviceObject :=
  (_setup_ports ;;;
   exists_ <- gets device_object.log_exists ;;
   if exists_ then
     try_except os_remove_log is_IOError (fun _ => ret tt)
   else ret tt)
    (mkDeviceObject port_name p_in p_out true true false
                    log_exists remove_fault).

Definition shutdown : M DeviceObject unit :=
  modify (set_shutdown_flag true) ;;;
  has_in <- gets has_midi_in ;;
  (if has_in then
     opened <- on_midi_in do_is_port_open ;;
     (if opened then on_midi_in do_close_port else ret tt) ;;;
     modify del_midi_in
   else ret tt) ;;;
  has_out <- gets has_midi_out ;;
  (if has_out then
     opened <- on_midi_out do_is_port_open ;;
     (if opened then on_midi_out do_close_port else ret tt) ;;;
     modify del_midi_out
   else ret tt).

(** [run]: the loop sleeps until [shutdown_flag] is set, which only another
    thread can do, or until [KeyboardInterrupt] arrives; [finally] calls
    [shutdown].  [flag_set k] says that another thread sets the flag during
    sleep number [k], [interrupted k] that [KeyboardInterrupt] is raised
    during it.  The loop is run on fuel: [None] means the fuel ran out while
    the loop was still going. *)
Section Running.

Variable flag_set : nat -> bool.
Variable interrupted : nat -> bool.

Fixpoint run_loop (fuel : nat) (k : nat) (o : DeviceObject)
    : option DeviceObject :=
  match fuel with
  | O => None
  | S fuel' =>
      if shutdown_flag o then Some o
      else if interrupted k then Some o
      else run_loop fuel' (S k)
             (if flag_set k then set_shutdown_flag true o else o)
  end.

Definition run (fuel : nat) (o : DeviceObject)
    : option (Outcome unit * DeviceObject) :=
  match run_loop fuel 0 o with
  | Some o' => Some (shutdown o')
  | None => None
  end.

End Running.

End device_object.

(** ** The rest of client/client.py: [shutdown] *)

Module client_object.

Import client.

(** The client object together with whether its [midi_in] and [midi_out]
    attributes still exist ([shutdown] deletes them with [del]). *)
Record ClientObject : Type := mkClientObject {
  self : Client;
  has_midi_in : bool;
  has_midi_out : bool
}.

Definition on_self {A} (op : M Client A) : M ClientObject A :=
  fun o =>
    let (r, c) := op (self o) in
    (r, mkClientObject c (has_midi_in o) (has_midi_out o)).

Definition del_midi_in (o : ClientObject) : ClientObject :=
  mkClientObject (self o) false (has_midi_out o).

Definition del_midi_out (o : ClientObject) : ClientObject :=
  mkClientObject (self o) (has_midi_in o) false.

Definition shutdown : M ClientObject unit :=
  has_in <- gets has_midi_in ;;
  (if has_in then
     opened <- on_self (on_midi_in do_is_port_open) ;;
     (if opened then on_self (on_midi_in do_close_port) else ret tt) ;;;
     modify del_midi_in
   else ret tt) ;;;
  has_out <- gets has_midi_out ;;
  (if has_out then
     opened <- on_self (on_midi_out do_is_port_open) ;;
     (if opened then on_self (on_midi_out do_close_port) else ret tt) ;;;
     modify del_midi_out
   else ret tt).

(** A client as [Client.__init__] leaves it. *)
Definition new (client_port_name : string) (p_in p_out : MidiPort)
    : ClientObject :=
  mkClientObject (__init__ client_port_name p_in p_out) true true.

End client_object.

(** ** Auxiliary notions for stating properties of the client *)

Module client_views.

Import client.

(** The messages handed to [send_message] among the calls made on a port,
    in order. *)
Fixpoint messages (l : list Call) : list (list Z) :=
  match l with
  | [] => []
  | send_message message :: rest => message :: messages rest
  | _ :: rest => messages rest
  end.

(** The messages the client hands to its output port's [send_message] while
    it runs [op] from [c]. *)
Definition emitted {A} (op : M Client A) (c : Client) : list (list Z) :=
  messages (skipn (List.length (calls (midi_out c)))
                  (calls (midi_out (snd (op c))))).

(** The frames delivered during the sleeps number [k], [k+1], ...,
    [k+n-1]. *)
Definition delivered_between (delivered : nat -> list (list Z)) (k n : nat)
    : list (list Z) :=
  List.concat (map delivered (seq k n)).

(** A port object on which no call ever raises. *)
Definition accepts_all (p : MidiPort) : Prop :=
  forall (history : list Call) (call : Call), faulty p history call = None.

End client_views.

(** ** Auxiliary notions for stating properties of the device *)

Module device_views.

Import device.

(** The device with the same port and log file behaviour and empty
    histories. *)
Definition blank (d : Device) : Device :=
  mkDevice (out_open d) (out_fault d) [] (log_fault d) [] [].

(** [d] with the histories of [d0] appended to its own. *)
Definition extend (d d0 : Device) : Device :=
  mkDevice (out_open d) (out_fault d) (out_sent d ++ out_sent d0)
           (log_fault d) (log_file d ++ log_file d0)
           (console d ++ console d0).

(** The effect of one inbound message [m] on what has been sent and
    logged: nothing; the Identity Reply, for an Identity Request frame; or,
    for a TriggerAction frame with the log action, one log record, with or
    without the echo of [m]. *)
Inductive effect (m : list Z) (d d' : Device) : Prop :=
| effect_silent :
    out_sent d' = out_sent d -> log_file d' = log_file d -> effect m d d'
| effect_identity :
    (exists device_id, m = identity_request device_id) ->
    out_sent d' = (out_sent d ++ [reply_message])%list ->
    log_file d' = log_file d -> effect m d d'
| effect_logged :
    (exists extra, m = trigger_action ACTION_ID_LOG extra) ->
    log_file d' = (log_file d ++ [log_content ACTION_ID_LOG m])%list ->
    out_sent d' = out_sent d \/ out_sent d' = (out_sent d ++ [m])%list ->
    effect m d d'.

(** The type nibble of a channel message whose data bytes the callback
    prints one by one: Note Off, Note On, Control Change. *)
Definition prints_two_data_bytes (status_byte : Z) : bool :=
  let message_type := Z.land status_byte 0xF0 in
  (message_type =? 0x90) || (message_type =? 0x80) || (message_type =? 0xB0).

End device_views.

(** ** Facts about the Python primitives *)

Module PyFacts.
Import Py.

Lemma index_nonneg {A} (l : list A) (i : Z) :
  0 <= i -> index l i = nth_error l (Z.to_nat i).
Proof.
  intros Hi. unfold index.
  destruct (Z.ltb_spec i 0) as [H|_]; [lia|].
  destruct (Z.leb_spec 0 i) as [_|H]; [|lia].
  destruct (Z.ltb_spec i (Z.of_nat (List.length l))) as [H|H]; [reflexivity|].
  symmetry. apply nth_error_None. lia.
Qed.

Lemma index_last {A} (l : list A) : index l (-1) = hd_error (rev l).
Proof.
  unfold index. change (-1 <? 0) with true. cbv iota.
  destruct l as [|a l] using rev_ind.
  - reflexivity.
  - rewrite rev_app_distr. simpl rev. simpl hd_error.
    rewrite length_app. simpl List.length.
    destruct (Z.leb_spec 0 (-1 + Z.of_nat (List.length l + 1))) as [_|H]; [|lia].
    destruct (Z.ltb_spec (-1 + Z.of_nat (List.length l + 1)) (Z.of_nat (List.length l + 1))) as [_|H]; [|lia].
    simpl andb. cbv iota.
    replace (Z.to_nat (-1 + Z.of_nat (List.length l + 1))) with (List.length l) by lia.
    rewrite nth_error_app2 by lia. rewrite Nat.sub_diag. reflexivity.
Qed.

Lemma index_nth {A} (l : list A) (i : nat) (x : A) :
  nth_error l i = Some x -> index l (Z.of_nat i) = Some x.
Proof.
  intros H. rewrite index_nonneg by lia. rewrite Nat2Z.id. exact H.
Qed.

Lemma index_last_app {A} (l : list A) (x : A) :
  index (l ++ [x]) (-1) = Some x.
Proof.
  rewrite index_last, rev_app_distr. reflexivity.
Qed.

Lemma bind_returned {S A B} (m : M S A) (k : A -> M S B) (s s' : S) (a : A) :
  m s = (Returned a, s') -> bind m k s = k a s'.
Proof. intros H. unfold bind. rewrite H. reflexivity. Qed.

End PyFacts.

(** ** Properties of the device *)

Module DeviceFacts.
Import PyFacts device.

Ltac eval_index :=
  repeat match goal with
    | |- context [@index ?A ?l ?i] =>
        let v := eval vm_compute in (@index A l i) in
        change (@index A l i) with v
    | |- context [len ?l] =>
        let v := eval vm_compute in (len l) in
        change (len l) with v
    end.

Ltac run_py :=
  cbv [on_midi_message _handle_custom_sysex _handle_trigger_action
    _handle_identity_request send_midi_message midi_out_send_message
    midi_out_is_port_open log_file_append print
    try_except is_IOError and_ or_ getitem bind ret raise gets modify
    out_open out_fault out_sent log_fault log_file console
    SYSEX_START SYSEX_END UNIVERSAL_NON_REALTIME_SYSEX GENERAL_INFORMATION
    IDENTITY_REQUEST IDENTITY_REPLY MANUFACTURER_ID DEVICE_ID_SYSEX
    COMMAND_TRIGGER_ACTION ACTION_ID_LOG fst snd].

Ltac decide_test c :=
  let v := eval vm_compute in c in
  lazymatch v with
  | true => change c with true
  | false => change c with false
  end.

Ltac decide_tests :=
  cbv beta iota delta [negb andb orb];
  repeat (match goal with
          | |- context [(?x =? ?y)%Z] => decide_test (x =? y)%Z
          | |- context [(?x <=? ?y)%Z] => decide_test (x <=? y)%Z
          | |- context [(?x <? ?y)%Z] => decide_test (x <? y)%Z
          end; cbv beta iota delta [negb andb orb]).

(** Case analysis on the tests of byte [x] against constants. *)
Ltac split_on x :=
  repeat match goal with
    | |- context [(x =? ?y)%Z] =>
        destruct (Z.eqb_spec x y); [subst x | ]; decide_tests
    end.

Ltac split_test :=
  match goal with
  | |- context [(?x =? ?y)%Z] => destruct (Z.eqb_spec x y)
  | |- context [(?x <=? ?y)%Z] => destruct (Z.leb_spec x y)
  | |- context [(?x <? ?y)%Z] => destruct (Z.ltb_spec x y)
  end; decide_tests.

Ltac split_tests := repeat split_test.

Ltac close_answer :=
  first
    [ apply answer_none; reflexivity
    | apply answer_identity; [eexists; reflexivity | reflexivity]
    | apply answer_echo; reflexivity ].

Ltac split_device o f lf :=
  destruct o; destruct f as [[|?|?]|]; destruct lf; cbv beta iota.

Lemma short_answer (m : list Z) (d : Device) :
  (List.length m <= 6)%nat ->
  answer m (out_sent d) (out_sent (snd (on_midi_message m d))).
Proof.
  intros Hlen.
  destruct d as [o f s lf lg con].
  destruct m as [|b0 [|b1 [|b2 [|b3 [|b4 [|b5 [|b6 rest]]]]]]];
    [| | | | | | | simpl in Hlen; lia].
  all: clear Hlen; run_py; eval_index; decide_tests.
  all: try split_on b0; try split_on b5; try split_on b4; try split_on b3;
    try split_on b2; try split_on b1; split_tests.
  all: try close_answer.
  all: split_device o f lf; close_answer.
Qed.

Lemma long_answer (m : list Z) (d : Device) :
  (6 < List.length m)%nat ->
  answer m (out_sent d) (out_sent (snd (on_midi_message m d))).
Proof.
  intros Hlen.
  destruct m as [|b0 [|b1 [|b2 [|b3 [|b4 [|b5 [|b6 rest]]]]]]];
    try (simpl in Hlen; lia).
  assert (L6 : (len (b0 :: b1 :: b2 :: b3 :: b4 :: b5 :: b6 :: rest) =? 6) = false)
    by (apply Z.eqb_neq; unfold len; simpl List.length; lia).
  assert (L5 : (len (b0 :: b1 :: b2 :: b3 :: b4 :: b5 :: b6 :: rest) <? 5) = false)
    by (apply Z.ltb_ge; unfold len; simpl List.length; lia).
  assert (G6 : (6 <=? len (b0 :: b1 :: b2 :: b3 :: b4 :: b5 :: b6 :: rest)) = true)
    by (apply Z.leb_le; unfold len; simpl List.length; lia).
  clear Hlen.
  destruct d as [o f s lf lg con].
  run_py.
  rewrite !(index_nth _ 0 b0), !(index_nth _ 1 b1), !(index_nth _ 2 b2),
    ?(index_nth _ 3 b3), ?(index_nth _ 4 b4) by reflexivity.
  rewrite L6, L5, G6.
  destruct (index (b0 :: b1 :: b2 :: b3 :: b4 :: b5 :: b6 :: rest) (-1)) as [z|];
    decide_tests.
  all: split_on b0; try split_on z; split_on b1; try split_on b2;
    try split_on b3; try split_on b4; split_tests.
  all: try (apply answer_none; reflexivity).
  all: split_device o f lf.
  all: try (apply answer_none; reflexivity).
  all: try (apply answer_echo; reflexivity).
Qed.

Lemma on_midi_message_answer (m : list Z) (d : Device) :
  answer m (out_sent d) (out_sent (snd (on_midi_message m d))).
Proof.
  destruct (Nat.le_gt_cases (List.length m) 6) as [H|H].
  - apply short_answer, H.
  - apply long_answer, H.
Qed.

Lemma identity_request_routed (device_id : Z) (d : Device) :
  on_midi_message (identity_request device_id) d
  = _handle_identity_request (identity_request device_id) d.
Proof. reflexivity. Qed.

Lemma identity_request_step (device_id : Z) (d : Device) :
  out_open d = true -> out_fault d = None ->
  let d' := snd (on_midi_message (identity_request device_id) d) in
  fst (on_midi_message (identity_request device_id) d) = Returned tt /\
  out_open d' = true /\ out_fault d' = None /\
  out_sent d' = (out_sent d ++ [reply_message])%list /\
  log_file d' = log_file d.
Proof.
  destruct d as [o f s lf lg con]. simpl. intros -> ->.
  repeat split.
Qed.

(** C1 (amended): a message is handed to the Identity Request handler exactly
    when it is the six bytes F0 7E xx 06 01 F7 for some third byte xx; the
    third byte (the target device id) is not examined. *)
Theorem identity_request_classification (m : list Z) :
  (forall d, on_midi_message m d = _handle_identity_request m d)
  <-> exists device_id, m = identity_request device_id.
Proof.
  split.
  - intros H.
    pose proof (on_midi_message_answer m started) as A.
    rewrite H in A.
    change (out_sent (snd (_handle_identity_request m started)))
      with [reply_message] in A.
    change (out_sent started) with (@nil (list Z)) in A.
    destruct A as [A | A _ | Hm A].
    + discriminate A.
    + exact A.
    + simpl in A. injection A as A. subst m. discriminate Hm.
  - intros [device_id ->] d. apply identity_request_routed.
Qed.

(** C1 (as stated) fails: the six-byte frame F0 7E 00 06 01 F7, whose third
    byte is not 0x7F, is handled as an Identity Request and answered with the
    Identity Reply. *)
Lemma identity_request_other_target_answered :
  [0xF0; 0x7E; 0x00; 0x06; 0x01; 0xF7] <> [0xF0; 0x7E; 0x7F; 0x06; 0x01; 0xF7]
  /\ on_midi_message [0xF0; 0x7E; 0x00; 0x06; 0x01; 0xF7] started
     = _handle_identity_request [0xF0; 0x7E; 0x00; 0x06; 0x01; 0xF7] started
  /\ out_sent (snd (on_midi_message [0xF0; 0x7E; 0x00; 0x06; 0x01; 0xF7] started))
     = [[0xF0; 0x7E; 0x7F; 0x06; 0x02; 0x7D;
         0x01; 0x01; 0x01; 0x01; 0x01; 0x01; 0x01; 0x01; 0xF7]].
Proof.
  split; [discriminate | split; reflexivity].
Qed.

(** C2: on the one-byte Note On message [0x90] the callback raises
    [IndexError] (it reads [message_bytes[1]] for the console line) instead
    of treating the message as unrecognized. *)
Theorem note_on_one_byte_raises (d : Device) :
  on_midi_message [0x90] d = (Raised IndexError, d).
Proof. reflexivity. Qed.

Lemma channel_message_two_bytes_raises (d : Device) :
  on_midi_message [0x90; 0x3C] d = (Raised IndexError, d)
  /\ on_midi_message [0x80; 0x3C] d = (Raised IndexError, d)
  /\ on_midi_message [0xB0; 0x07] d = (Raised IndexError, d).
Proof. repeat split. Qed.

Lemma empty_sysex_unrecognized (d : Device) :
  fst (on_midi_message [0xF0; 0xF7] d) = Returned tt
  /\ out_sent (snd (on_midi_message [0xF0; 0xF7] d)) = out_sent d
  /\ log_file (snd (on_midi_message [0xF0; 0xF7] d)) = log_file d.
Proof. repeat split. Qed.

Lemma deliver_identity_requests (ids : list Z) : forall d : Device,
  out_open d = true -> out_fault d = None ->
  out_sent (deliver_all (map identity_request ids) d)
  = (out_sent d ++ repeat reply_message (List.length ids))%list.
Proof.
  induction ids as [|device_id ids IH]; intros d Ho Hf.
  - simpl. symmetry. apply app_nil_r.
  - destruct (identity_request_step device_id d Ho Hf) as (_ & Ho' & Hf' & Hs & _).
    cbn [map deliver_all List.length repeat].
    rewrite IH by assumption. rewrite Hs, <- app_assoc. reflexivity.
Qed.

(** C3: on a device whose output port is open and accepts the message, every
    Identity Request frame is answered with exactly one message, the fifteen
    bytes F0 7E 7F 06 02 7D 01 01 01 01 01 01 01 01 F7; after any number of
    requests the messages sent are that many copies of it. *)
Theorem identity_request_one_fixed_reply (d : Device) :
  out_open d = true -> out_fault d = None ->
  (forall device_id,
     fst (on_midi_message (identity_request device_id) d) = Returned tt /\
     out_sent (snd (on_midi_message (identity_request device_id) d))
     = (out_sent d ++
        [[0xF0; 0x7E; 0x7F; 0x06; 0x02; 0x7D;
          0x01; 0x01; 0x01; 0x01; 0x01; 0x01; 0x01; 0x01; 0xF7]])%list) /\
  (forall ids,
     out_sent (deliver_all (map identity_request ids) d)
     = (out_sent d ++
        repeat [0xF0; 0x7E; 0x7F; 0x06; 0x02; 0x7D;
                0x01; 0x01; 0x01; 0x01; 0x01; 0x01; 0x01; 0x01; 0xF7]
               (List.length ids))%list).
Proof.
  intros Ho Hf. split.
  - intros device_id.
    destruct (identity_request_step device_id d Ho Hf) as (Hr & _ & _ & Hs & _).
    split; [exact Hr | exact Hs].
  - intros ids. apply (deliver_identity_requests ids d Ho Hf).
Qed.

(** With the output port closed [send_midi_message] only prints: the
    request is handled and nothing is sent. *)
Lemma identity_request_port_closed (device_id : Z) (d : Device) :
  out_open d = false ->
  fst (on_midi_message (identity_request device_id) d) = Returned tt /\
  out_sent (snd (on_midi_message (identity_request device_id) d)) = out_sent d.
Proof.
  destruct d as [o f s lf lg con]. simpl. intros ->. split; reflexivity.
Qed.

Lemma identity_request_one_fixed_reply_witness :
  out_open started = true /\ out_fault started = None /\
  out_sent (deliver_all
              (map identity_request [0x7F; 0x7F; 0x7F]) started)
  = repeat [0xF0; 0x7E; 0x7F; 0x06; 0x02; 0x7D;
            0x01; 0x01; 0x01; 0x01; 0x01; 0x01; 0x01; 0x01; 0xF7] 3.
Proof.
  split; [reflexivity | split; [reflexivity | ]].
  apply (proj2 (identity_request_one_fixed_reply started eq_refl eq_refl)
               [0x7F; 0x7F; 0x7F]).
Defined.

(** C4: on a device whose log file can be written and whose output port is
    open and accepts the message, the frame F0 7D 01 03 01 F7 is answered by
    sending the same six bytes back, and one record is appended to the log
    file; the record is
    [TriggerAction: ID=1, FullMsg=[240, 125, 1, 3, 1, 247]] and a newline. *)
Theorem trigger_action_log_echo_and_record (d : Device) :
  log_fault d = None -> out_open d = true -> out_fault d = None ->
  let frame := [0xF0; 0x7D; 0x01; 0x03; 0x01; 0xF7] in
  let record :=
    "TriggerAction: ID=1, FullMsg=[240, 125, 1, 3, 1, 247]" ++ newline in
  fst (on_midi_message frame d) = Returned tt /\
  out_sent (snd (on_midi_message frame d)) = (out_sent d ++ [frame])%list /\
  log_file (snd (on_midi_message frame d)) = (log_file d ++ [record])%list /\
  contains "TriggerAction: ID=1" record = true /\
  contains (str_list frame) record = true.
Proof.
  destruct d as [o f s lf lg con]. simpl out_open. simpl out_fault.
  simpl log_fault. intros -> -> ->.
  repeat split.
Qed.

Lemma trigger_action_log_echo_and_record_witness :
  log_fault started = None /\ out_open started = true /\
  out_fault started = None /\
  out_sent (snd (on_midi_message [0xF0; 0x7D; 0x01; 0x03; 0x01; 0xF7] started))
  = [[0xF0; 0x7D; 0x01; 0x03; 0x01; 0xF7]].
Proof.
  repeat (split; [reflexivity | ]).
  apply (proj1 (proj2 (trigger_action_log_echo_and_record
                         started eq_refl eq_refl eq_refl))).
Defined.

Lemma custom_sysex_last (device_id command_id : Z) (payload : list Z) :
  index (custom_sysex device_id command_id payload) (-1) = Some SYSEX_END.
Proof.
  unfold custom_sysex.
  change ([SYSEX_START; MANUFACTURER_ID; device_id; command_id]
            ++ payload ++ [SYSEX_END])%list
    with ((SYSEX_START :: MANUFACTURER_ID :: device_id :: command_id :: payload)
            ++ [SYSEX_END])%list.
  apply index_last_app.
Qed.

(** C6: a custom SysEx frame F0 7D <device id> <command id> ... F7 whose
    device id is not 0x01 is not answered, whatever its command id and
    payload: the callback returns, nothing is sent and nothing is written to
    the log file. *)
Theorem other_device_id_no_reply
    (device_id command_id : Z) (payload : list Z) (d : Device) :
  device_id <> DEVICE_ID_SYSEX ->
  let r := on_midi_message (custom_sysex device_id command_id payload) d in
  fst r = Returned tt /\
  out_sent (snd r) = out_sent d /\
  log_file (snd r) = log_file d.
Proof.
  intros Hid r. subst r.
  pose proof (custom_sysex_last device_id command_id payload) as Hl.
  unfold custom_sysex in *. cbn [app] in *.
  unfold SYSEX_START, SYSEX_END, MANUFACTURER_ID, DEVICE_ID_SYSEX in *.
  destruct d as [o f s lf lg con].
  run_py.
  rewrite !(index_nth _ 0 240), ?(index_nth _ 1 125),
    ?(index_nth _ 2 device_id) by reflexivity.
  rewrite Hl.
  destruct (Z.eqb_spec device_id 1) as [E|_]; [contradiction|].
  decide_tests.
  destruct (len (240 :: 125 :: device_id :: command_id :: payload ++ [247]) =? 6);
    repeat split.
Qed.

Lemma other_device_id_no_reply_witness :
  0x02 <> DEVICE_ID_SYSEX /\
  out_sent (snd (on_midi_message
                   (custom_sysex 0x02 COMMAND_TRIGGER_ACTION [0x01]) started))
  = [].
Proof.
  split; [discriminate | ].
  apply (proj1 (proj2 (other_device_id_no_reply
                         0x02 COMMAND_TRIGGER_ACTION [0x01] started
                         ltac:(discriminate)))).
Defined.

(** C5: a TriggerAction frame F0 7D 01 03 <action id> ... F7 whose action id
    is not 0x01 is not answered and nothing is appended to the log file; the
    callback returns. *)
Theorem unknown_action_no_reply_no_log
    (action_id : Z) (extra : list Z) (d : Device) :
  action_id <> ACTION_ID_LOG ->
  let r := on_midi_message (trigger_action action_id extra) d in
  fst r = Returned tt /\
  out_sent (snd r) = out_sent d /\
  log_file (snd r) = log_file d.
Proof.
  intros Hid r. subst r. unfold trigger_action.
  pose proof (custom_sysex_last DEVICE_ID_SYSEX COMMAND_TRIGGER_ACTION
                (action_id :: extra)) as Hl.
  unfold custom_sysex in *. cbn [app] in *.
  assert (L5 : (len (SYSEX_START :: MANUFACTURER_ID :: DEVICE_ID_SYSEX
                       :: COMMAND_TRIGGER_ACTION :: action_id
                       :: extra ++ [SYSEX_END]) <? 5) = false)
    by (apply Z.ltb_ge; unfold len; cbn [List.length]; lia).
  assert (G6 : (6 <=? len (SYSEX_START :: MANUFACTURER_ID :: DEVICE_ID_SYSEX
                       :: COMMAND_TRIGGER_ACTION :: action_id
                       :: extra ++ [SYSEX_END])) = true).
  { apply Z.leb_le. unfold len. cbn [List.length]. rewrite length_app.
    cbn [List.length]. lia. }
  unfold SYSEX_START, SYSEX_END, MANUFACTURER_ID, DEVICE_ID_SYSEX,
    COMMAND_TRIGGER_ACTION, ACTION_ID_LOG in *.
  destruct d as [o f s lf lg con].
  run_py.
  rewrite !(index_nth _ 0 240), !(index_nth _ 1 125), !(index_nth _ 2 1),
    !(index_nth _ 3 3), ?(index_nth _ 4 action_id) by reflexivity.
  rewrite Hl, L5, G6.
  destruct (Z.eqb_spec action_id 1) as [E|_]; [contradiction|].
  decide_tests.
  destruct (len (240 :: 125 :: 1 :: 3 :: action_id :: extra ++ [247]) =? 6);
    repeat split.
Qed.

Lemma unknown_action_no_reply_no_log_witness :
  0xFF <> ACTION_ID_LOG /\
  out_sent (snd (on_midi_message [0xF0; 0x7D; 0x01; 0x03; 0xFF; 0xF7] started))
  = [] /\
  log_file (snd (on_midi_message [0xF0; 0x7D; 0x01; 0x03; 0xFF; 0xF7] started))
  = [].
Proof.
  split; [discriminate | ].
  apply (proj2 (unknown_action_no_reply_no_log
                  0xFF [] started ltac:(discriminate))).
Defined.

(** C9 (amended): in the handler of TriggerAction 0x01 the echo is sent only
    after the log write has succeeded, so a failed log write suppresses the
    reply; the record is appended whenever the log file can be written,
    whether or not the echo can then be sent (a failed send rolls nothing
    back). *)
Theorem trigger_action_log_then_echo (original_message : list Z) (d : Device) :
  let d' := snd (_handle_trigger_action ACTION_ID_LOG original_message d) in
  log_file d'
  = (log_file d ++
     match log_fault d with
     | None => [log_content ACTION_ID_LOG original_message]
     | Some _ => []
     end)%list
  /\
  out_sent d'
  = (out_sent d ++
     match log_fault d, out_open d, out_fault d with
     | None, true, None => [original_message]
     | _, _, _ => []
     end)%list.
Proof.
  destruct d as [o [[|msg|msg]|] s [err|] lg con]; destruct o;
    cbn; rewrite ?app_nil_r; split; reflexivity.
Qed.

(** C9 (as stated) fails: when the log file cannot be written, the frame
    F0 7D 01 03 01 F7 is not echoed although the output port is open and
    would accept the message. *)
Lemma log_failure_suppresses_echo :
  let d := mkDevice true None [] (Some "Permission denied") [] [] in
  out_open d = true /\ out_fault d = None /\
  fst (_handle_trigger_action 0x01 [0xF0; 0x7D; 0x01; 0x03; 0x01; 0xF7] d)
  = Returned tt /\
  out_sent (snd (_handle_trigger_action
                   0x01 [0xF0; 0x7D; 0x01; 0x03; 0x01; 0xF7] d)) = [] /\
  out_sent (snd (on_midi_message [0xF0; 0x7D; 0x01; 0x03; 0x01; 0xF7] d)) = [].
Proof.
  repeat split.
Qed.

(** Where the callback can raise [IndexError] by itself: only on a channel
    voice message (status byte 0x80..0xEF) of fewer than three bytes. *)
Lemma index_error_only_on_short_channel_message (m : list Z) (d : Device) :
  out_fault d <> Some IndexError ->
  fst (on_midi_message m d) = Raised IndexError ->
  exists status_byte,
    hd_error m = Some status_byte /\
    0x80 <= status_byte <= 0xEF /\
    (List.length m < 3)%nat.
Proof.
  intros Hf.
  destruct (Nat.le_gt_cases (List.length m) 6) as [Hlen|Hlen].
  - destruct d as [o f s lf lg con]. cbn [out_fault] in Hf.
    destruct m as [|b0 [|b1 [|b2 [|b3 [|b4 [|b5 [|b6 rest]]]]]]];
      [| | | | | | | simpl in Hlen; lia].
    all: clear Hlen; run_py; eval_index; decide_tests.
    all: try split_on b0; try split_on b5; try split_on b4; try split_on b3;
      try split_on b2; try split_on b1; split_tests.
    all: try discriminate.
    all: try (intros _; eexists; split; [reflexivity | split; [lia | simpl; lia]]).
    all: split_device o f lf; try discriminate; try congruence.
  - destruct m as [|b0 [|b1 [|b2 [|b3 [|b4 [|b5 [|b6 rest]]]]]]];
      try (simpl in Hlen; lia).
    assert (L6 : (len (b0 :: b1 :: b2 :: b3 :: b4 :: b5 :: b6 :: rest) =? 6) = false)
      by (apply Z.eqb_neq; unfold len; simpl List.length; lia).
    assert (L5 : (len (b0 :: b1 :: b2 :: b3 :: b4 :: b5 :: b6 :: rest) <? 5) = false)
      by (apply Z.ltb_ge; unfold len; simpl List.length; lia).
    assert (G6 : (6 <=? len (b0 :: b1 :: b2 :: b3 :: b4 :: b5 :: b6 :: rest)) = true)
      by (apply Z.leb_le; unfold len; simpl List.length; lia).
    assert (Hl : exists z, index (b0 :: b1 :: b2 :: b3 :: b4 :: b5 :: b6 :: rest) (-1) = Some z).
    { rewrite index_last. cbn [rev].
      destruct (rev rest) as [|z t]; eexists; reflexivity. }
    destruct Hl as [z Hl].
    clear Hlen.
    destruct d as [o f s lf lg con]. cbn [out_fault] in Hf.
    run_py.
    rewrite !(index_nth _ 0 b0), !(index_nth _ 1 b1), !(index_nth _ 2 b2),
      ?(index_nth _ 3 b3), ?(index_nth _ 4 b4) by reflexivity.
    rewrite L6, L5, G6, Hl. decide_tests.
    split_on b0; try split_on z; split_on b1; try split_on b2;
      try split_on b3; try split_on b4; split_tests.
    all: try discriminate.
    all: split_device o f lf; try discriminate; try congruence.
Qed.

Example test_identity_request :
  In [ SYSEX_START; UNIVERSAL_NON_REALTIME_SYSEX; 0x7F; GENERAL_INFORMATION;
       IDENTITY_REPLY; MANUFACTURER_ID;
       0x01; 0x01; 0x01; 0x01; 0x01; 0x01; 0x01; 0x01; SYSEX_END ]
     (out_sent (snd (on_midi_message
                       [ SYSEX_START; UNIVERSAL_NON_REALTIME_SYSEX; 0x7F;
                         GENERAL_INFORMATION; IDENTITY_REQUEST; SYSEX_END ]
                       started))).
Proof. left. reflexivity. Qed.

Example test_trigger_action_log_and_ack :
  let trigger_action_sysex :=
    [ SYSEX_START; MANUFACTURER_ID; DEVICE_ID_SYSEX; COMMAND_TRIGGER_ACTION;
      ACTION_ID_LOG; SYSEX_END ] in
  let d := snd (on_midi_message trigger_action_sysex started) in
  In trigger_action_sysex (out_sent d) /\
  contains
    ("TriggerAction: ID=" ++ str ACTION_ID_LOG ++ ", FullMsg="
       ++ str_list trigger_action_sysex)
    (String.concat "" (log_file d)) = true.
Proof. split; [left; reflexivity | reflexivity]. Qed.

End DeviceFacts.

(** ** Properties of the client *)

Module ClientFacts.
Import PyFacts client.

Lemma connect_out_loop_no_match (target : string) (ports : list string) :
  forall (i : nat) (c : Client),
    no_match target ports = true ->
    connect_out_loop target i ports c = (Returned false, c).
Proof.
  induction ports as [|port_name rest IH]; intros i c H.
  - reflexivity.
  - cbn [no_match forallb] in H. apply andb_prop in H as [Hp Hr].
    apply negb_true_iff in Hp. cbn [connect_out_loop]. rewrite Hp.
    apply IH, Hr.
Qed.


(** The outbound loop touches the output port only. *)
Lemma connect_out_loop_frame (target : string) (ports : list string) :
  forall (i : nat) (c : Client),
    let c' := snd (connect_out_loop target i ports c) in
    midi_in c' = midi_in c /\ client_port_name c' = client_port_name c.
Proof.
  induction ports as [|port_name rest IH]; intros i c.
  - split; reflexivity.
  - cbn [connect_out_loop].
    destruct (contains target port_name); [|apply IH].
    destruct c as [name p_in p_out ti to inbox].
    cbv [bind try_except on_midi_out do_close_port do_open_port invoke ret
         is_RtMidiError midi_out calls faulty record_call set_bound
         client_port_name midi_in target_device_in_port_name
         target_device_out_port_name _received_messages port_names bound].
    destruct p_out as [names b cs f].
    destruct (f cs close_port) as [msg|].
    + apply (IH (S i) (mkClient name p_in _ ti to inbox)).
    + destruct (f (cs ++ [close_port])%list (open_port i)) as [msg|].
      * apply (IH (S i) (mkClient name p_in _ ti to inbox)).
      * split; reflexivity.
Qed.

(** C7: when no outbound port name contains the device-inbound substring,
    [connect_to_device] returns [False] after the one [get_ports()] on the
    output port: the output port keeps its binding and the input port object
    is not touched at all (no enumeration, no close, no open). *)
Theorem no_outbound_match_returns_false (c : Client) (i o : string) :
  no_match i (port_names (midi_out c)) = true ->
  let r := connect_to_device i o c in
  fst r = Returned false /\
  midi_in (snd r) = midi_in c /\
  bound (midi_out (snd r)) = bound (midi_out c) /\
  calls (midi_out (snd r)) = (calls (midi_out c) ++ [get_ports])%list.
Proof.
  intros H r. subst r.
  unfold connect_to_device, outbound_leg.
  destruct c as [name p_in p_out ti to inbox].
  cbn [midi_out] in H.
  cbv [bind modify set_targets on_midi_out do_get_ports query record_call
       midi_out midi_in client_port_name target_device_in_port_name
       target_device_out_port_name _received_messages].
  rewrite (connect_out_loop_no_match i (port_names p_out) 0 _ H).
  repeat split.
Qed.

Lemma no_outbound_match_returns_false_witness :
  let c := __init__ "ConnectFailClient"
             (fresh_port ["MockDevice MIDI Out"] never_raises)
             (fresh_port ["Other Port"; "Another Port"] never_raises) in
  no_match "MockDevice MIDI In" (port_names (midi_out c)) = true /\
  fst (connect_to_device "MockDevice MIDI In" "MockDevice MIDI Out" c)
  = Returned false /\
  midi_in (snd (connect_to_device "MockDevice MIDI In" "MockDevice MIDI Out" c))
  = midi_in c.
Proof.
  intros c. split; [reflexivity | ].
  pose proof (no_outbound_match_returns_false
                c "MockDevice MIDI In" "MockDevice MIDI Out" eq_refl) as H.
  split; [exact (proj1 H) | exact (proj1 (proj2 H))].
Defined.

(** What [_open_client_ports] does to the two port objects. *)
Lemma _open_client_ports_calls (c : Client) :
  let name := client_port_name c in
  let r := _open_client_ports c in
  fst r = Returned tt /\
  calls (midi_in (snd r))
  = (calls (midi_in c)
       ++ [open_virtual_port (name ++ " In"); is_port_open]
       ++ match bound (midi_in (snd r)) with
          | Some _ => [set_callback]
          | None => []
          end)%list /\
  calls (midi_out (snd r))
  = (calls (midi_out c) ++ [open_virtual_port (name ++ " Out")])%list /\
  (faulty (midi_in c) (calls (midi_in c)) (open_virtual_port (name ++ " In"))
   = None ->
   bound (midi_in (snd r)) = Some (Virtual (name ++ " In"))) /\
  (faulty (midi_out c) (calls (midi_out c)) (open_virtual_port (name ++ " Out"))
   = None ->
   bound (midi_out (snd r)) = Some (Virtual (name ++ " Out"))).
Proof.
  destruct c as [name [n_in b_in cs_in f_in] [n_out b_out cs_out f_out] ti to inbox].
  cbv [_open_client_ports bind gets try_except on_midi_in on_midi_out
       do_open_virtual_port do_is_port_open do_set_callback invoke query ret
       is_RtMidiError record_call set_bound
       client_port_name midi_in midi_out target_device_in_port_name
       target_device_out_port_name _received_messages
       port_names bound calls faulty fst snd].
  destruct (f_in cs_in (open_virtual_port (name ++ " In"))) as [e1|];
    destruct (f_out cs_out (open_virtual_port (name ++ " Out"))) as [e2|];
    cbv beta iota; try destruct b_in; cbv beta iota;
    rewrite <- ?app_assoc; repeat split; intros; try discriminate; reflexivity.
Qed.

Lemma outbound_leg_frame (substr : string) (c : Client) :
  let c' := snd (outbound_leg substr c) in
  midi_in c' = midi_in c /\ client_port_name c' = client_port_name c.
Proof.
  destruct c as [name p_in p_out ti to inbox].
  unfold outbound_leg.
  cbv [bind on_midi_out do_get_ports query record_call
       midi_out midi_in client_port_name target_device_in_port_name
       target_device_out_port_name _received_messages].
  apply (connect_out_loop_frame substr (port_names p_out) 0
           (mkClient name p_in _ ti to inbox)).
Qed.




(** C10: with a timeout of zero or less, and a clock that does not run
    backwards between its first two readings, [pop_received_message] returns
    [None] and leaves the inbox as it was, whatever the inbox holds: the loop
    body, the only place that looks at the inbox, is never entered. *)
Theorem pop_without_timeout_returns_none
    (time_time : nat -> Q) (delivered : nat -> list (list Z))
    (fuel : nat) (timeout_sec : Q) (c : Client) :
  (timeout_sec <= 0)%Q ->
  (time_time 0%nat <= time_time 1%nat)%Q ->
  pop_received_message time_time delivered (S fuel) timeout_sec c
  = Some (None, c).
Proof.
  intros Ht Hclock.
  unfold pop_received_message. cbn [pop_loop].
  destruct (Qlt_le_dec (time_time 1%nat - time_time 0%nat) timeout_sec) as [H|H].
  - exfalso. lra.
  - reflexivity.
Qed.

Lemma pop_without_timeout_returns_none_witness :
  let c := set_received_messages [[0xB0; 0x07; 0x7F]]
             (__init__ "MockTestClient"
                (fresh_port [] never_raises) (fresh_port [] never_raises)) in
  (0 <= 0)%Q /\ (0 <= 0)%Q /\
  _received_messages c = [[0xB0; 0x07; 0x7F]] /\
  pop_received_message (fun _ => 0%Q) (fun _ => []) 1 0%Q c = Some (None, c).
Proof.
  intros c.
  split; [apply Qle_refl | split; [apply Qle_refl | split; [reflexivity | ]]].
  apply (pop_without_timeout_returns_none
           (fun _ => 0%Q) (fun _ => []) 0 0%Q c (Qle_refl 0) (Qle_refl 0)).
Defined.

(** *** The unit tests of the client, replayed on the model *)

Example test_connect_to_device_success :
  let c := __init__ "ConnectClient"
             (fresh_port ["MockDevice MIDI Out"; "Some Other Input"]
                         never_raises)
             (fresh_port ["Other Port"; "MockDevice MIDI In"; "Another Port"]
                         never_raises) in
  let r := connect_to_device "MockDevice MIDI In" "MockDevice MIDI Out" c in
  fst r = Returned true /\
  bound (midi_out (snd r)) = Some (Port 1) /\
  bound (midi_in (snd r)) = Some (Port 0) /\
  calls (midi_in (snd r))
  = (calls (midi_in c) ++ [get_ports; close_port; open_port 0; set_callback])%list.
Proof. repeat split. Qed.

Example test_connect_to_device_fail_input_not_found :
  let c := __init__ "ConnectFailClient"
             (fresh_port ["Some Other Input"] never_raises)
             (fresh_port ["MockDevice MIDI In"] never_raises) in
  let r := connect_to_device "MockDevice MIDI In" "NonExistentDeviceOutput" c in
  fst r = Returned false /\
  last (filter (fun call => match call with
                            | open_virtual_port _ => true
                            | _ => false
                            end) (calls (midi_in (snd r)))) get_ports
  = open_virtual_port "ConnectFailClient In".
Proof. split; reflexivity. Qed.

Example test_receive_midi_message_callback :
  let c := __init__ "MockTestClient"
             (fresh_port [] never_raises) (fresh_port [] never_raises) in
  let c' := snd (_on_midi_message [0xB0; 0x07; 0x7F] c) in
  pop_received_message (fun k => (Z.of_nat k # 1000)%Q) (fun _ => [])
                       10 (1 # 100)%Q c'
  = Some (Some [0xB0; 0x07; 0x7F], c).
Proof. reflexivity. Qed.

Example test_pop_received_message_timeout :
  let c := __init__ "MockTestClient"
             (fresh_port [] never_raises) (fresh_port [] never_raises) in
  pop_received_message (fun k => (Z.of_nat k # 200)%Q) (fun _ => [])
                       10 (1 # 100)%Q c
  = Some (None, c).
Proof. reflexivity. Qed.

Example test_send_identity_request :
  let c := __init__ "MockTestClient"
             (fresh_port [] never_raises) (fresh_port [] never_raises) in
  calls (midi_out (snd (send_identity_request c)))
  = (calls (midi_out c)
       ++ [is_port_open; send_message [0xF0; 0x7E; 0x7F; 0x06; 0x01; 0xF7]])%list.
Proof. reflexivity. Qed.

End ClientFacts.

(** ** More properties of the device's callback *)

Module DeviceMore.
Import PyFacts device device_views DeviceFacts.

Lemma index_last_inv {A} (l : list A) (x : A) :
  index l (-1) = Some x -> exists l', l = (l' ++ [x])%list.
Proof.
  rewrite index_last. intros H.
  destruct (rev l) as [|y t] eqn:E; [discriminate|].
  injection H as ->.
  exists (rev t). rewrite <- (rev_involutive l), E. reflexivity.
Qed.

(** A frame of seven bytes or more that ends with [x] is its first five
    bytes, some more bytes, and [x]. *)
Lemma long_frame_split (b0 b1 b2 b3 b4 b5 b6 x : Z) (rest : list Z) :
  index (b0 :: b1 :: b2 :: b3 :: b4 :: b5 :: b6 :: rest) (-1) = Some x ->
  exists extra,
    b0 :: b1 :: b2 :: b3 :: b4 :: b5 :: b6 :: rest
    = (b0 :: b1 :: b2 :: b3 :: b4 :: extra ++ [x])%list.
Proof.
  intros H. apply index_last_inv in H as [l' H].
  destruct l' as [|c0 [|c1 [|c2 [|c3 [|c4 extra]]]]];
    try discriminate H.
  injection H as -> -> -> -> -> H. exists extra. rewrite H. reflexivity.
Qed.

Ltac close_effect :=
  first
    [ apply effect_silent; reflexivity
    | apply effect_identity; [eexists; reflexivity | reflexivity | reflexivity]
    | apply effect_logged;
      [ exists []; reflexivity | reflexivity
      | first [left; reflexivity | right; reflexivity] ] ].

Lemma short_effect (m : list Z) (d : Device) :
  (List.length m <= 6)%nat ->
  effect m d (snd (on_midi_message m d)).
Proof.
  intros Hlen.
  destruct d as [o f s lf lg con].
  destruct m as [|b0 [|b1 [|b2 [|b3 [|b4 [|b5 [|b6 rest]]]]]]];
    [| | | | | | | simpl in Hlen; lia].
  all: clear Hlen; run_py; eval_index; decide_tests.
  all: try split_on b0; try split_on b5; try split_on b4; try split_on b3;
    try split_on b2; try split_on b1; split_tests.
  all: try close_effect.
  all: split_device o f lf; close_effect.
Qed.

Lemma long_effect (m : list Z) (d : Device) :
  (6 < List.length m)%nat ->
  effect m d (snd (on_midi_message m d)).
Proof.
  intros Hlen.
  destruct m as [|b0 [|b1 [|b2 [|b3 [|b4 [|b5 [|b6 rest]]]]]]];
    try (simpl in Hlen; lia).
  assert (L6 : (len (b0 :: b1 :: b2 :: b3 :: b4 :: b5 :: b6 :: rest) =? 6) = false)
    by (apply Z.eqb_neq; unfold len; simpl List.length; lia).
  assert (L5 : (len (b0 :: b1 :: b2 :: b3 :: b4 :: b5 :: b6 :: rest) <? 5) = false)
    by (apply Z.ltb_ge; unfold len; simpl List.length; lia).
  assert (G6 : (6 <=? len (b0 :: b1 :: b2 :: b3 :: b4 :: b5 :: b6 :: rest)) = true)
    by (apply Z.leb_le; unfold len; simpl List.length; lia).
  clear Hlen.
  destruct (index (b0 :: b1 :: b2 :: b3 :: b4 :: b5 :: b6 :: rest) (-1))
    as [z|] eqn:Hl.
  2:{ exfalso. rewrite index_last in Hl. cbn [rev] in Hl.
      destruct (rev rest); discriminate Hl. }
  pose proof (long_frame_split _ _ _ _ _ _ _ _ _ Hl) as [extra Hx].
  destruct d as [o f s lf lg con].
  run_py.
  rewrite !(index_nth _ 0 b0), !(index_nth _ 1 b1), !(index_nth _ 2 b2),
    ?(index_nth _ 3 b3), ?(index_nth _ 4 b4) by reflexivity.
  rewrite L6, L5, G6, Hl. decide_tests.
  split_on b0; try split_on z; split_on b1; try split_on b2;
    try split_on b3; try split_on b4; split_tests.
  all: try (apply effect_silent; reflexivity).
  all: split_device o f lf.
  all: try (apply effect_silent; reflexivity).
  all: apply effect_logged;
    [ exists extra; exact Hx | reflexivity
    | first [left; reflexivity | right; reflexivity] ].
Qed.

Lemma message_effect (m : list Z) (d : Device) :
  effect m d (snd (on_midi_message m d)).
Proof.
  destruct (Nat.le_gt_cases (List.length m) 6) as [H|H].
  - apply short_effect, H.
  - apply long_effect, H.
Qed.

Ltac close_rebase :=
  cbv [fst snd out_open out_fault out_sent log_fault log_file console];
  cbn [app]; rewrite ?app_nil_r, <- ?app_assoc; cbn [app]; reflexivity.

Lemma short_rebase (m : list Z) (d : Device) :
  (List.length m <= 6)%nat ->
  on_midi_message m d
  = (fst (on_midi_message m (blank d)),
     extend d (snd (on_midi_message m (blank d)))).
Proof.
  intros Hlen.
  destruct d as [o f s lf lg con]. cbv [blank extend].
  destruct m as [|b0 [|b1 [|b2 [|b3 [|b4 [|b5 [|b6 rest]]]]]]];
    [| | | | | | | simpl in Hlen; lia].
  all: clear Hlen; run_py; eval_index; decide_tests.
  all: try split_on b0; try split_on b5; try split_on b4; try split_on b3;
    try split_on b2; try split_on b1; split_tests.
  all: try close_rebase.
  all: split_device o f lf; close_rebase.
Qed.

Lemma long_rebase (m : list Z) (d : Device) :
  (6 < List.length m)%nat ->
  on_midi_message m d
  = (fst (on_midi_message m (blank d)),
     extend d (snd (on_midi_message m (blank d)))).
Proof.
  intros Hlen.
  destruct m as [|b0 [|b1 [|b2 [|b3 [|b4 [|b5 [|b6 rest]]]]]]];
    try (simpl in Hlen; lia).
  assert (L6 : (len (b0 :: b1 :: b2 :: b3 :: b4 :: b5 :: b6 :: rest) =? 6) = false)
    by (apply Z.eqb_neq; unfold len; simpl List.length; lia).
  assert (L5 : (len (b0 :: b1 :: b2 :: b3 :: b4 :: b5 :: b6 :: rest) <? 5) = false)
    by (apply Z.ltb_ge; unfold len; simpl List.length; lia).
  assert (G6 : (6 <=? len (b0 :: b1 :: b2 :: b3 :: b4 :: b5 :: b6 :: rest)) = true)
    by (apply Z.leb_le; unfold len; simpl List.length; lia).
  clear Hlen.
  destruct d as [o f s lf lg con]. cbv [blank extend].
  run_py.
  rewrite !(index_nth _ 0 b0), !(index_nth _ 1 b1), !(index_nth _ 2 b2),
    ?(index_nth _ 3 b3), ?(index_nth _ 4 b4) by reflexivity.
  rewrite L6, L5, G6.
  destruct (index (b0 :: b1 :: b2 :: b3 :: b4 :: b5 :: b6 :: rest) (-1))
    as [z|]; decide_tests.
  all: split_on b0; try split_on z; split_on b1; try split_on b2;
    try split_on b3; try split_on b4; split_tests.
  all: try close_rebase.
  all: split_device o f lf; close_rebase.
Qed.

Lemma message_rebase (m : list Z) (d : Device) :
  on_midi_message m d
  = (fst (on_midi_message m (blank d)),
     extend d (snd (on_midi_message m (blank d)))).
Proof.
  destruct (Nat.le_gt_cases (List.length m) 6) as [H|H].
  - apply short_rebase, H.
  - apply long_rebase, H.
Qed.

Lemma blank_after_message (m : list Z) (d : Device) :
  blank (snd (on_midi_message m d)) = blank d.
Proof.
  rewrite message_rebase. destruct d as [o f s lf lg con]. reflexivity.
Qed.

Lemma extend_extend (d d1 d2 : Device) :
  extend (extend d d1) d2 = extend d (extend d1 d2).
Proof.
  destruct d, d1, d2. cbv [extend out_open out_fault out_sent log_fault
    log_file console]. rewrite <- !app_assoc. reflexivity.
Qed.

Lemma blank_extend (d d0 : Device) : blank (extend d d0) = blank d.
Proof. destruct d, d0. reflexivity. Qed.

Lemma blank_blank (d : Device) : blank (blank d) = blank d.
Proof. reflexivity. Qed.

(** X1: the device keeps no state between messages.  What a stream of
    inbound messages makes the device send, log and print does not depend on
    what it has sent, logged and printed before: delivering the stream to [d]
    gives the histories of [d] followed by what the same stream gives on the
    device with empty histories; the port and log file behaviour are left as
    they were. *)
Theorem deliver_all_history_independent (messages : list (list Z)) :
  forall d : Device,
    deliver_all messages d = extend d (deliver_all messages (blank d)).
Proof.
  induction messages as [|m rest IH]; intros d.
  - destruct d as [o f s lf lg con]. cbv [deliver_all blank extend
      out_open out_fault out_sent log_fault log_file console].
    rewrite !app_nil_r. reflexivity.
  - cbn [deliver_all].
    rewrite (IH (snd (on_midi_message m d))).
    rewrite (IH (snd (on_midi_message m (blank d)))).
    rewrite !blank_after_message.
    rewrite (message_rebase m d). cbn [snd].
    rewrite extend_extend, blank_blank. reflexivity.
Qed.

(** X2: the device sends at most one message, and writes at most one log
    record, per inbound message: after any stream of inbound messages the
    messages sent and the records logged have each grown by no more than the
    length of the stream. *)
Theorem at_most_one_reply_per_message (messages : list (list Z)) :
  forall d : Device,
    (List.length (out_sent (deliver_all messages d))
     <= List.length (out_sent d) + List.length messages)%nat /\
    (List.length (log_file (deliver_all messages d))
     <= List.length (log_file d) + List.length messages)%nat.
Proof.
  induction messages as [|m rest IH]; intros d.
  - cbn. lia.
  - cbn [deliver_all List.length].
    destruct (IH (snd (on_midi_message m d))) as [Hs Hl].
    destruct (message_effect m d) as [Es El | _ Es El | _ El [Es|Es]];
      rewrite Es in Hs; rewrite El in Hl;
      rewrite ?length_app in Hs; rewrite ?length_app in Hl;
      cbn [List.length] in Hs, Hl; split; lia.
Qed.

Lemma identity_request_delimited (device_id : Z) :
  hd_error (identity_request device_id) = Some SYSEX_START /\
  index (identity_request device_id) (-1) = Some SYSEX_END.
Proof. split; reflexivity. Qed.

Lemma trigger_action_delimited (action_id : Z) (extra : list Z) :
  hd_error (trigger_action action_id extra) = Some SYSEX_START /\
  index (trigger_action action_id extra) (-1) = Some SYSEX_END.
Proof.
  split; [reflexivity | apply custom_sysex_last].
Qed.

(** X3: only a delimited SysEx message is ever answered or logged.  A
    message that does not start with F0, or does not end with F7 (a channel
    or system message, a SysEx frame cut short), leaves the messages sent and
    the log file as they were. *)
Theorem undelimited_message_ignored (m : list Z) (d : Device) :
  hd_error m <> Some SYSEX_START \/ index m (-1) <> Some SYSEX_END ->
  out_sent (snd (on_midi_message m d)) = out_sent d /\
  log_file (snd (on_midi_message m d)) = log_file d.
Proof.
  intros H.
  destruct (message_effect m d) as [Es El | [id ->] _ _ | [extra ->] _ _].
  - split; assumption.
  - destruct (identity_request_delimited id) as [H0 H1].
    destruct H as [H|H]; contradiction.
  - destruct (trigger_action_delimited ACTION_ID_LOG extra) as [H0 H1].
    destruct H as [H|H]; contradiction.
Qed.

Lemma undelimited_message_ignored_witness :
  (hd_error [0xF0; 0x7D; 0x01; 0x03; 0x01] <> Some SYSEX_START \/
   index [0xF0; 0x7D; 0x01; 0x03; 0x01] (-1) <> Some SYSEX_END) /\
  out_sent (snd (on_midi_message [0xF0; 0x7D; 0x01; 0x03; 0x01] started)) = []
  /\ log_file (snd (on_midi_message [0xF0; 0x7D; 0x01; 0x03; 0x01] started)) = [].
Proof.
  split; [right; discriminate | ].
  apply (undelimited_message_ignored [0xF0; 0x7D; 0x01; 0x03; 0x01] started).
  right. discriminate.
Defined.

(** X4: every message the device sends is accounted for.  If an inbound
    message makes the device send anything, then either the message is an
    Identity Request frame F0 7E xx 06 01 F7 and the one message sent is the
    Identity Reply, or it is a TriggerAction frame F0 7D 01 03 01 ... F7, the
    one message sent is that frame itself, and its record has been appended
    to the log file first. *)
Theorem reply_is_identity_reply_or_logged_echo (m : list Z) (d : Device) :
  out_sent (snd (on_midi_message m d)) <> out_sent d ->
  (exists device_id,
     m = identity_request device_id /\
     out_sent (snd (on_midi_message m d)) = (out_sent d ++ [reply_message])%list /\
     log_file (snd (on_midi_message m d)) = log_file d)
  \/
  (exists extra,
     m = trigger_action ACTION_ID_LOG extra /\
     out_sent (snd (on_midi_message m d)) = (out_sent d ++ [m])%list /\
     log_file (snd (on_midi_message m d))
     = (log_file d ++ [log_content ACTION_ID_LOG m])%list).
Proof.
  intros H.
  destruct (message_effect m d) as [Es El | [id Hm] Es El | [extra Hm] El [Es|Es]].
  - contradiction.
  - left. exists id. repeat split; assumption.
  - contradiction.
  - right. exists extra. repeat split; assumption.
Qed.

Lemma reply_is_identity_reply_or_logged_echo_witness :
  out_sent (snd (on_midi_message (trigger_action ACTION_ID_LOG [0x05]) started))
  <> out_sent started /\
  log_file (snd (on_midi_message (trigger_action ACTION_ID_LOG [0x05]) started))
  = [log_content ACTION_ID_LOG (trigger_action ACTION_ID_LOG [0x05])].
Proof.
  split; [discriminate | ].
  destruct (reply_is_identity_reply_or_logged_echo
              (trigger_action ACTION_ID_LOG [0x05]) started
              ltac:(discriminate))
    as [[id [Hm _]] | [extra [_ [_ Hl]]]].
  - discriminate Hm.
  - exact Hl.
Defined.

(** X5: the log file is written for one kind of message only.  If an inbound
    message changes the log file, the message is a TriggerAction frame
    F0 7D 01 03 01 ... F7 and exactly its record has been appended. *)
Theorem log_record_means_log_action (m : list Z) (d : Device) :
  log_file (snd (on_midi_message m d)) <> log_file d ->
  exists extra,
    m = trigger_action ACTION_ID_LOG extra /\
    log_file (snd (on_midi_message m d))
    = (log_file d ++ [log_content ACTION_ID_LOG m])%list.
Proof.
  intros H.
  destruct (message_effect m d) as [Es El | _ Es El | [extra Hm] El _].
  - contradiction.
  - contradiction.
  - exists extra. split; assumption.
Qed.

Lemma log_record_means_log_action_witness :
  log_file (snd (on_midi_message (trigger_action ACTION_ID_LOG []) started))
  <> log_file started /\
  exists extra,
    trigger_action ACTION_ID_LOG [] = trigger_action ACTION_ID_LOG extra.
Proof.
  split; [discriminate | ].
  destruct (log_record_means_log_action
              (trigger_action ACTION_ID_LOG []) started ltac:(discriminate))
    as [extra [Hm _]].
  exists extra. exact Hm.
Defined.

(** X6: the callback raises [IndexError] exactly on a Note Off, Note On or
    Control Change message (status byte 0x80..0xEF with type nibble 0x80,
    0x90 or 0xB0) of fewer than three bytes, whose missing data bytes it
    reads for the console line; this assumes that the transport's own
    failure, if any, is not an [IndexError]. *)
Theorem index_error_exactly_on_short_channel_message (m : list Z) (d : Device) :
  out_fault d <> Some IndexError ->
  (fst (on_midi_message m d) = Raised IndexError
   <->
   exists status_byte,
     hd_error m = Some status_byte /\
     0x80 <= status_byte <= 0xEF /\
     prints_two_data_bytes status_byte = true /\
     (List.length m < 3)%nat).
Proof.
  intros Hf. split.
  - intros Hr.
    destruct (index_error_only_on_short_channel_message m d Hf Hr)
      as (s & Hh & Hrange & Hlen).
    exists s. repeat split; try assumption; try lia.
    destruct (prints_two_data_bytes s) eqn:Hp; [reflexivity | exfalso].
    unfold prints_two_data_bytes in Hp.
    apply orb_false_elim in Hp as [Hp HB]. apply orb_false_elim in Hp as [H9 H8].
    destruct d as [o f sn lf lg con].
    destruct m as [|b0 [|b1 [|b2 rest]]]; cbn in Hh, Hlen; try lia;
      try discriminate Hh; injection Hh as ->.
    all: revert Hr; run_py; eval_index; decide_tests.
    all: destruct (Z.eqb_spec s 240); [lia|]; decide_tests.
    all: destruct (Z.leb_spec 128 s); [|lia]; destruct (Z.leb_spec s 239); [|lia].
    all: decide_tests; rewrite H9, H8, HB; discriminate.
  - intros (s & Hh & Hrange & Hp & Hlen).
    unfold prints_two_data_bytes in Hp.
    destruct d as [o f sn lf lg con].
    destruct m as [|b0 [|b1 [|b2 rest]]]; cbn in Hh, Hlen; try lia;
      try discriminate Hh; injection Hh as ->.
    all: run_py; eval_index; decide_tests.
    all: destruct (Z.eqb_spec s 240); [lia|]; decide_tests.
    all: destruct (Z.leb_spec 128 s); [|lia]; destruct (Z.leb_spec s 239); [|lia].
    all: decide_tests.
    all: destruct (Z.land s 240 =? 144); [reflexivity|].
    all: destruct (Z.land s 240 =? 128); [reflexivity|].
    all: destruct (Z.land s 240 =? 176); [reflexivity|discriminate Hp].
Qed.

Lemma index_error_exactly_on_short_channel_message_witness :
  out_fault started <> Some IndexError /\
  fst (on_midi_message [0xB3; 0x07] started) = Raised IndexError.
Proof.
  split; [discriminate | ].
  apply (proj2 (index_error_exactly_on_short_channel_message
                  [0xB3; 0x07] started ltac:(discriminate))).
  exists 0xB3. repeat split; try reflexivity; try discriminate. simpl. lia.
Defined.

Lemma short_escape (m : list Z) (d : Device) (e : Exn) :
  (List.length m <= 6)%nat ->
  fst (on_midi_message m d) = Raised e ->
  e = IndexError \/ out_fault d = Some e.
Proof.
  intros Hlen.
  destruct d as [o f s lf lg con].
  destruct m as [|b0 [|b1 [|b2 [|b3 [|b4 [|b5 [|b6 rest]]]]]]];
    [| | | | | | | simpl in Hlen; lia].
  all: clear Hlen; run_py; eval_index; decide_tests.
  all: try split_on b0; try split_on b5; try split_on b4; try split_on b3;
    try split_on b2; try split_on b1; split_tests.
  all: try discriminate.
  all: try (intros [= <-]; left; reflexivity).
  all: split_device o f lf; try discriminate.
  all: intros [= <-]; right; reflexivity.
Qed.

Lemma long_escape (m : list Z) (d : Device) (e : Exn) :
  (6 < List.length m)%nat ->
  fst (on_midi_message m d) = Raised e ->
  e = IndexError \/ out_fault d = Some e.
Proof.
  intros Hlen.
  destruct m as [|b0 [|b1 [|b2 [|b3 [|b4 [|b5 [|b6 rest]]]]]]];
    try (simpl in Hlen; lia).
  assert (L6 : (len (b0 :: b1 :: b2 :: b3 :: b4 :: b5 :: b6 :: rest) =? 6) = false)
    by (apply Z.eqb_neq; unfold len; simpl List.length; lia).
  assert (L5 : (len (b0 :: b1 :: b2 :: b3 :: b4 :: b5 :: b6 :: rest) <? 5) = false)
    by (apply Z.ltb_ge; unfold len; simpl List.length; lia).
  assert (G6 : (6 <=? len (b0 :: b1 :: b2 :: b3 :: b4 :: b5 :: b6 :: rest)) = true)
    by (apply Z.leb_le; unfold len; simpl List.length; lia).
  clear Hlen.
  destruct d as [o f s lf lg con].
  run_py.
  rewrite !(index_nth _ 0 b0), !(index_nth _ 1 b1), !(index_nth _ 2 b2),
    ?(index_nth _ 3 b3), ?(index_nth _ 4 b4) by reflexivity.
  rewrite L6, L5, G6.
  destruct (index (b0 :: b1 :: b2 :: b3 :: b4 :: b5 :: b6 :: rest) (-1))
    as [z|]; decide_tests.
  all: split_on b0; try split_on z; split_on b1; try split_on b2;
    try split_on b3; try split_on b4; split_tests.
  all: try discriminate.
  all: try (intros [= <-]; left; reflexivity).
  all: split_device o f lf; try discriminate.
  all: intros [= <-]; right; reflexivity.
Qed.

(** X7: nothing but an [IndexError] or the exception [send_message] itself
    raised ever escapes the callback; in particular a failure to write the
    log file never does. *)
Theorem escaping_exception_is_index_or_send_error
    (m : list Z) (d : Device) (e : Exn) :
  fst (on_midi_message m d) = Raised e ->
  e = IndexError \/ out_fault d = Some e.
Proof.
  destruct (Nat.le_gt_cases (List.length m) 6) as [H|H].
  - apply short_escape, H.
  - apply long_escape, H.
Qed.

Lemma escaping_exception_is_index_or_send_error_witness :
  let d := mkDevice true (Some (RtMidiError "send failed")) [] None [] [] in
  fst (on_midi_message (identity_request 0x7F) d)
  = Raised (RtMidiError "send failed") /\
  (RtMidiError "send failed" = IndexError \/
   out_fault d = Some (RtMidiError "send failed")).
Proof.
  intros d. split; [reflexivity | ].
  apply (escaping_exception_is_index_or_send_error
           (identity_request 0x7F) d (RtMidiError "send failed") eq_refl).
Defined.

Lemma addressed_frame_dropped
    (command_id : Z) (payload : list Z) (d : Device) :
  ~ (command_id = COMMAND_TRIGGER_ACTION /\
     hd_error payload = Some ACTION_ID_LOG) ->
  let r := on_midi_message (custom_sysex DEVICE_ID_SYSEX command_id payload) d in
  fst r = Returned tt /\
  out_sent (snd r) = out_sent d /\
  log_file (snd r) = log_file d.
Proof.
  intros Hno r. subst r.
  pose proof (custom_sysex_last DEVICE_ID_SYSEX command_id payload) as Hl.
  unfold custom_sysex in *. cbn [app] in *.
  unfold SYSEX_START, SYSEX_END, MANUFACTURER_ID, DEVICE_ID_SYSEX,
    COMMAND_TRIGGER_ACTION, ACTION_ID_LOG in *.
  destruct d as [o f s lf lg con].
  destruct payload as [|action_id extra].
  - cbn [app]. clear Hl.
    run_py; eval_index; decide_tests.
    destruct (Z.eqb_spec command_id 3); decide_tests; repeat split.
  - cbn [app] in *.
    assert (L5 : (len (240 :: 125 :: 1 :: command_id :: action_id
                         :: extra ++ [247]) <? 5) = false)
      by (apply Z.ltb_ge; unfold len; cbn [List.length]; lia).
    assert (G6 : (6 <=? len (240 :: 125 :: 1 :: command_id :: action_id
                         :: extra ++ [247])) = true).
    { apply Z.leb_le. unfold len. cbn [List.length]. rewrite length_app.
      cbn [List.length]. lia. }
    run_py.
    rewrite !(index_nth _ 0 240), !(index_nth _ 1 125), !(index_nth _ 2 1),
      !(index_nth _ 3 command_id), ?(index_nth _ 4 action_id) by reflexivity.
    rewrite Hl, L5, G6. decide_tests.
    destruct (Z.eqb_spec command_id 3) as [Ec|Ec]; decide_tests.
    + destruct (Z.eqb_spec action_id 1) as [Ea|Ea].
      * exfalso. apply Hno. subst. split; reflexivity.
      * destruct (len (240 :: 125 :: 1 :: command_id :: action_id
                         :: extra ++ [247]) =? 6); repeat split.
    + destruct (len (240 :: 125 :: 1 :: command_id :: action_id
                       :: extra ++ [247]) =? 6); repeat split.
Qed.

(** X8: a frame addressed to this device, F0 7D 01 <command id> ... F7, is
    dropped unless it is TriggerAction (command id 0x03) with the log action
    (first payload byte 0x01): any other command id (SetParameter 0x01 and
    GetParameter 0x02 included), a TriggerAction frame without an action id,
    and any other action id give no reply and no log record, and the callback
    returns without raising. *)
Theorem addressed_frame_without_log_action_dropped
    (command_id : Z) (payload : list Z) (d : Device) :
  ~ (command_id = COMMAND_TRIGGER_ACTION /\
     hd_error payload = Some ACTION_ID_LOG) ->
  let r := on_midi_message (custom_sysex DEVICE_ID_SYSEX command_id payload) d in
  fst r = Returned tt /\
  out_sent (snd r) = out_sent d /\
  log_file (snd r) = log_file d.
Proof. exact (addressed_frame_dropped command_id payload d). Qed.

Lemma addressed_frame_without_log_action_dropped_witness :
  ~ (COMMAND_TRIGGER_ACTION = COMMAND_TRIGGER_ACTION /\
     hd_error (@nil Z) = Some ACTION_ID_LOG) /\
  fst (on_midi_message [0xF0; 0x7D; 0x01; 0x03; 0xF7] started) = Returned tt /\
  out_sent (snd (on_midi_message [0xF0; 0x7D; 0x01; 0x03; 0xF7] started)) = [].
Proof.
  assert (H : ~ (COMMAND_TRIGGER_ACTION = COMMAND_TRIGGER_ACTION /\
                 hd_error (@nil Z) = Some ACTION_ID_LOG))
    by (intros [_ H]; discriminate H).
  split; [exact H | ].
  pose proof (addressed_frame_without_log_action_dropped
                COMMAND_TRIGGER_ACTION [] started H) as (H1 & H2 & _).
  split; [exact H1 | exact H2].
Defined.

Lemma log_action_echoed (extra : list Z) (d : Device) :
  log_fault d = None -> out_open d = true -> out_fault d = None ->
  let m := trigger_action ACTION_ID_LOG extra in
  let r := on_midi_message m d in
  fst r = Returned tt /\
  out_sent (snd r) = (out_sent d ++ [m])%list /\
  log_file (snd r)
  = (log_file d ++
     [("TriggerAction: ID=1, FullMsg=" ++ str_list m ++ newline)%string])%list.
Proof.
  intros Hlf Ho Hf m r.
  destruct d as [o f s lf lg con]. cbn in Hlf, Ho, Hf. subst o f lf.
  subst r m. unfold trigger_action.
  pose proof (custom_sysex_last DEVICE_ID_SYSEX COMMAND_TRIGGER_ACTION
                (ACTION_ID_LOG :: extra)) as Hl.
  unfold custom_sysex in *. cbn [app] in *.
  assert (L5 : (len (SYSEX_START :: MANUFACTURER_ID :: DEVICE_ID_SYSEX
                       :: COMMAND_TRIGGER_ACTION :: ACTION_ID_LOG
                       :: extra ++ [SYSEX_END]) <? 5) = false)
    by (apply Z.ltb_ge; unfold len; cbn [List.length]; lia).
  assert (G6 : (6 <=? len (SYSEX_START :: MANUFACTURER_ID :: DEVICE_ID_SYSEX
                       :: COMMAND_TRIGGER_ACTION :: ACTION_ID_LOG
                       :: extra ++ [SYSEX_END])) = true).
  { apply Z.leb_le. unfold len. cbn [List.length]. rewrite length_app.
    cbn [List.length]. lia. }
  unfold SYSEX_START, SYSEX_END, MANUFACTURER_ID, DEVICE_ID_SYSEX,
    COMMAND_TRIGGER_ACTION, ACTION_ID_LOG in *.
  run_py.
  rewrite !(index_nth _ 0 240), !(index_nth _ 1 125), !(index_nth _ 2 1),
    !(index_nth _ 3 3), ?(index_nth _ 4 1) by reflexivity.
  rewrite Hl, L5, G6. decide_tests.
  destruct (len (240 :: 125 :: 1 :: 3 :: 1 :: extra ++ [247]) =? 6);
    repeat split.
Qed.

(** X9: a TriggerAction frame with the log action is logged and echoed
    whole also when more bytes follow the action id: on a device whose log
    file can be written and whose output port is open and accepts the
    message, F0 7D 01 03 01 <extra...> F7 is sent back unchanged and its
    record, which lists every byte of the frame, is appended. *)
Theorem log_action_with_extra_bytes_echoed (extra : list Z) (d : Device) :
  log_fault d = None -> out_open d = true -> out_fault d = None ->
  let m := trigger_action ACTION_ID_LOG extra in
  let r := on_midi_message m d in
  fst r = Returned tt /\
  out_sent (snd r) = (out_sent d ++ [m])%list /\
  log_file (snd r)
  = (log_file d ++
     [("TriggerAction: ID=1, FullMsg=" ++ str_list m ++ newline)%string])%list.
Proof. exact (log_action_echoed extra d). Qed.

Lemma log_action_with_extra_bytes_echoed_witness :
  log_fault started = None /\ out_open started = true /\
  out_fault started = None /\
  out_sent (snd (on_midi_message
                   [0xF0; 0x7D; 0x01; 0x03; 0x01; 0x05; 0x06; 0xF7] started))
  = [[0xF0; 0x7D; 0x01; 0x03; 0x01; 0x05; 0x06; 0xF7]].
Proof.
  repeat (split; [reflexivity | ]).
  apply (proj1 (proj2 (log_action_with_extra_bytes_echoed
                         [0x05; 0x06] started eq_refl eq_refl eq_refl))).
Defined.

(** X10: what a failing send does in the handler of the log action.  The
    record is written before the send, so it stays in every case.  A send
    failure that is an [OSError] is caught by the [except IOError] meant for
    the log file: the handler returns normally and the console reports an
    error writing the log file.  Any other send failure escapes the
    handler. *)
Theorem send_failure_in_log_action
    (original_message : list Z) (d : Device) (e : Exn) :
  log_fault d = None -> out_open d = true -> out_fault d = Some e ->
  let r := _handle_trigger_action ACTION_ID_LOG original_message d in
  log_file (snd r)
  = (log_file d ++ [log_content ACTION_ID_LOG original_message])%list /\
  out_sent (snd r) = out_sent d /\
  match e with
  | OSError msg =>
      fst r = Returned tt /\
      last (console (snd r)) ""%string
      = ("Device: Error writing to log file device_actions.log: " ++ msg)%string
  | _ => fst r = Raised e
  end.
Proof.
  intros Hlf Ho Hf r. subst r.
  destruct d as [o f s lf lg con]. cbn in Hlf, Ho, Hf. subst o f lf.
  destruct e as [|msg|msg]; cbn; repeat split.
  rewrite last_last. reflexivity.
Qed.

Lemma send_failure_in_log_action_witness :
  let d := mkDevice true (Some (OSError "MidiOutAlsa: error sending")) []
                    None [] [] in
  log_fault d = None /\ out_open d = true /\
  out_fault d = Some (OSError "MidiOutAlsa: error sending") /\
  log_file (snd (_handle_trigger_action ACTION_ID_LOG
                   (trigger_action ACTION_ID_LOG []) d))
  = [log_content ACTION_ID_LOG (trigger_action ACTION_ID_LOG [])].
Proof.
  intros d. repeat (split; [reflexivity | ]).
  apply (proj1 (send_failure_in_log_action
                  (trigger_action ACTION_ID_LOG []) d
                  (OSError "MidiOutAlsa: error sending")
                  eq_refl eq_refl eq_refl)).
Defined.

End DeviceMore.

(** ** More properties of the client *)

Module ClientMore.
Import PyFacts client client_views ClientFacts.

Ltac unfold_client :=
  cbv [bind try_except on_midi_in on_midi_out do_close_port do_open_port
       do_set_callback do_get_ports do_is_port_open do_open_virtual_port
       do_send_message invoke query ret gets modify
       is_RtMidiError record_call set_bound set_targets
       midi_out midi_in calls faulty bound port_names
       client_port_name target_device_in_port_name
       target_device_out_port_name _received_messages fst snd].

Lemma connect_out_loop_returns (target : string) (ports : list string) :
  forall (k : nat) (c : Client),
    exists b, fst (connect_out_loop target k ports c) = Returned b.
Proof.
  induction ports as [|port_name rest IH]; intros k c.
  - exists false. reflexivity.
  - cbn [connect_out_loop].
    destruct (contains target port_name); [|apply IH].
    destruct c as [name p_in [names b cs f] ti to inbox].
    unfold_client.
    destruct (f cs close_port) as [msg|].
    + apply IH.
    + destruct (f (cs ++ [close_port])%list (open_port k)) as [msg|].
      * apply IH.
      * exists true. reflexivity.
Qed.

Lemma connect_in_loop_returns (target : string) (ports : list string) :
  forall (k : nat) (c : Client),
    exists b, fst (connect_in_loop target k ports c) = Returned b.
Proof.
  induction ports as [|port_name rest IH]; intros k c.
  - exists false. reflexivity.
  - cbn [connect_in_loop].
    destruct (contains target port_name); [|apply IH].
    destruct c as [name [names b cs f] p_out ti to inbox].
    unfold_client.
    destruct (f cs close_port) as [msg|].
    + apply IH.
    + destruct (f (cs ++ [close_port])%list (open_port k)) as [msg|].
      * apply IH.
      * exists true. reflexivity.
Qed.

Lemma outbound_leg_returns (substr : string) (c : Client) :
  exists b c', outbound_leg substr c = (Returned b, c').
Proof.
  unfold outbound_leg.
  destruct c as [name p_in p_out ti to inbox].
  cbv [bind on_midi_out do_get_ports query record_call midi_out].
  match goal with
  | |- context [connect_out_loop ?t ?k ?ps ?c0] =>
      destruct (connect_out_loop_returns t ps k c0) as [b Hb];
      destruct (connect_out_loop t k ps c0) as [r c'] eqn:E
  end.
  cbn in Hb. subst r. exists b, c'. reflexivity.
Qed.

Lemma inbound_leg_returns (substr : string) (c : Client) :
  exists b c', inbound_leg substr c = (Returned b, c').
Proof.
  unfold inbound_leg.
  destruct c as [name p_in p_out ti to inbox].
  cbv [bind on_midi_in do_get_ports query record_call midi_in].
  match goal with
  | |- context [connect_in_loop ?t ?k ?ps ?c0] =>
      destruct (connect_in_loop_returns t ps k c0) as [b Hb];
      destruct (connect_in_loop t k ps c0) as [r c'] eqn:E
  end.
  cbn in Hb. subst r. exists b, c'. reflexivity.
Qed.

Lemma _open_client_ports_returns (c : Client) :
  _open_client_ports c = (Returned tt, snd (_open_client_ports c)).
Proof.
  pose proof (_open_client_ports_calls c) as (Hr & _).
  destruct (_open_client_ports c) as [x y]. cbn in Hr |- *. subst x.
  reflexivity.
Qed.

(** How [connect_to_device] ends, by the outcomes of its two legs. *)
Lemma connect_to_device_cases (c : Client) (i o : string) :
  (exists c1, outbound_leg i (set_targets i o c) = (Returned false, c1) /\
              connect_to_device i o c = (Returned false, c1))
  \/
  (exists c1 c2,
     outbound_leg i (set_targets i o c) = (Returned true, c1) /\
     inbound_leg o c1 = (Returned false, c2) /\
     connect_to_device i o c = (Returned false, snd (_open_client_ports c2)))
  \/
  (exists c1 c2,
     outbound_leg i (set_targets i o c) = (Returned true, c1) /\
     inbound_leg o c1 = (Returned true, c2) /\
     connect_to_device i o c = (Returned true, c2)).
Proof.
  unfold connect_to_device.
  rewrite (bind_returned _ _ c (set_targets i o c) tt eq_refl).
  destruct (outbound_leg_returns i (set_targets i o c)) as (b1 & c1 & H1).
  rewrite (bind_returned _ _ _ _ _ H1).
  destruct b1; cbn [negb].
  - destruct (inbound_leg_returns o c1) as (b2 & c2 & H2).
    rewrite (bind_returned _ _ _ _ _ H2).
    destruct b2; cbn [negb].
    + right. right. exists c1, c2. repeat split; assumption.
    + right. left. exists c1, c2. repeat split; try assumption.
      rewrite (bind_returned _ _ _ _ _ (_open_client_ports_returns c2)).
      reflexivity.
  - left. exists c1. split; [assumption | reflexivity].
Qed.

(** X11: no [RtMidiError] raised by [close_port], [open_port] or
    [open_virtual_port] escapes [connect_to_device].  Each of these calls is
    made inside a [try] with [except rtmidi.RtMidiError]: whichever of them
    the MIDI library refuses, at whatever point of the handshake, the
    handshake still returns [True] or [False].  ([get_ports],
    [is_port_open] and [set_callback] are taken to return, as everywhere in
    this model.  The code calls [get_ports] and, in the fallback,
    [is_port_open] and [set_callback] outside any [try]: an exception from
    one of those calls would escape.) *)
Theorem connect_to_device_catches_refused_port_calls
    (c : Client) (i o : string) :
  exists b : bool, fst (connect_to_device i o c) = Returned b.
Proof.
  destruct (connect_to_device_cases c i o)
    as [(c1 & _ & H) | [(c1 & c2 & _ & _ & H) | (c1 & c2 & _ & _ & H)]];
    rewrite H; eexists; reflexivity.
Qed.

Lemma outbound_leg_eq (substr : string) (c : Client) :
  outbound_leg substr c
  = connect_out_loop substr 0 (port_names (midi_out c))
      (snd (on_midi_out do_get_ports c)).
Proof. destruct c as [name p_in p_out ti to inbox]. reflexivity. Qed.

Lemma inbound_leg_eq (substr : string) (c : Client) :
  inbound_leg substr c
  = connect_in_loop substr 0 (port_names (midi_in c))
      (snd (on_midi_in do_get_ports c)).
Proof. destruct c as [name p_in p_out ti to inbox]. reflexivity. Qed.

Lemma connect_out_loop_true (target : string) (ports : list string) :
  forall (k : nat) (c c' : Client),
    connect_out_loop target k ports c = (Returned true, c') ->
    exists n name,
      nth_error ports n = Some name /\
      contains target name = true /\
      bound (midi_out c') = Some (Port (k + n)).
Proof.
  induction ports as [|port_name rest IH]; intros k c c' H.
  - discriminate H.
  - cbn [connect_out_loop] in H.
    destruct (contains target port_name) eqn:Hc.
    + destruct c as [name p_in [names b cs f] ti to inbox].
      revert H. unfold_client.
      destruct (f cs close_port) as [msg|].
      * intros H. apply IH in H as (n & nm & Hn & Hm & Hb).
        exists (S n), nm. rewrite Nat.add_succ_r. repeat split; assumption.
      * destruct (f (cs ++ [close_port])%list (open_port k)) as [msg|].
        -- intros H. apply IH in H as (n & nm & Hn & Hm & Hb).
           exists (S n), nm. rewrite Nat.add_succ_r. repeat split; assumption.
        -- intros [= <-]. exists 0%nat, port_name.
           rewrite Nat.add_0_r. repeat split; assumption.
    + apply IH in H as (n & nm & Hn & Hm & Hb).
      exists (S n), nm. rewrite Nat.add_succ_r. repeat split; assumption.
Qed.

Lemma connect_in_loop_true (target : string) (ports : list string) :
  forall (k : nat) (c c' : Client),
    connect_in_loop target k ports c = (Returned true, c') ->
    (exists n name,
       nth_error ports n = Some name /\
       contains target name = true /\
       bound (midi_in c') = Some (Port (k + n))) /\
    midi_out c' = midi_out c /\
    last (calls (midi_in c')) get_ports = set_callback.
Proof.
  induction ports as [|port_name rest IH]; intros k c c' H.
  - discriminate H.
  - cbn [connect_in_loop] in H.
    destruct (contains target port_name) eqn:Hc.
    + destruct c as [name [names b cs f] p_out ti to inbox].
      revert H. unfold_client.
      destruct (f cs close_port) as [msg|].
      * intros H. apply IH in H as ((n & nm & Hn & Hm & Hb) & Ho & Hl).
        split; [|split; assumption].
        exists (S n), nm. rewrite Nat.add_succ_r. repeat split; assumption.
      * destruct (f (cs ++ [close_port])%list (open_port k)) as [msg|].
        -- intros H. apply IH in H as ((n & nm & Hn & Hm & Hb) & Ho & Hl).
           split; [|split; assumption].
           exists (S n), nm. rewrite Nat.add_succ_r. repeat split; assumption.
        -- intros [= <-]. cbn [midi_in midi_out bound calls].
           split; [|split; [reflexivity | apply last_last]].
           exists 0%nat, port_name.
           rewrite Nat.add_0_r. repeat split; assumption.
    + apply IH in H as ((n & nm & Hn & Hm & Hb) & Ho & Hl).
      split; [|split; assumption].
      exists (S n), nm. rewrite Nat.add_succ_r. repeat split; assumption.
Qed.

(** X12: a handshake that reports [True] has bound both channels to ports
    whose names match.  The output port is then open on an index whose name,
    as listed by [get_ports()], contains the device-inbound substring; the
    input port is open on an index whose name contains the device-outbound
    substring, and the last call made on it re-installed the callback. *)
Theorem connect_true_means_both_bound (c : Client) (i o : string) :
  fst (connect_to_device i o c) = Returned true ->
  let c' := snd (connect_to_device i o c) in
  (exists n name,
     nth_error (port_names (midi_out c)) n = Some name /\
     contains i name = true /\
     bound (midi_out c') = Some (Port n)) /\
  (exists n name,
     nth_error (port_names (midi_in c)) n = Some name /\
     contains o name = true /\
     bound (midi_in c') = Some (Port n)) /\
  last (calls (midi_in c')) get_ports = set_callback.
Proof.
  intros H c'. subst c'.
  destruct (connect_to_device_cases c i o)
    as [(c1 & _ & E) | [(c1 & c2 & _ & _ & E) | (c1 & c2 & H1 & H2 & E)]];
    rewrite E in H |- *; try discriminate H.
  cbn [snd].
  pose proof (outbound_leg_frame i (set_targets i o c)) as [Hmi _].
  rewrite H1 in Hmi. cbn [snd] in Hmi.
  change (midi_in (set_targets i o c)) with (midi_in c) in Hmi.
  rewrite outbound_leg_eq in H1. rewrite inbound_leg_eq in H2.
  apply connect_out_loop_true in H1 as (n1 & nm1 & Hn1 & Hm1 & Hb1).
  apply connect_in_loop_true in H2 as ((n2 & nm2 & Hn2 & Hm2 & Hb2) & Ho & Hl).
  change (port_names (midi_out (set_targets i o c)))
    with (port_names (midi_out c)) in Hn1.
  rewrite Hmi in Hn2.
  assert (Ho' : midi_out c2 = midi_out c1) by (rewrite Ho; reflexivity).
  split; [|split].
  - exists n1, nm1. rewrite Ho'. repeat split; assumption.
  - exists n2, nm2. repeat split; assumption.
  - exact Hl.
Qed.

Lemma connect_true_means_both_bound_witness :
  let c := __init__ "ConnectClient"
             (fresh_port ["MockDevice MIDI Out"; "Some Other Input"]
                         never_raises)
             (fresh_port ["Other Port"; "MockDevice MIDI In"; "Another Port"]
                         never_raises) in
  let r := connect_to_device "MockDevice MIDI In" "MockDevice MIDI Out" c in
  fst r = Returned true /\
  last (calls (midi_in (snd r))) get_ports = set_callback.
Proof.
  intros c r. split; [reflexivity | ].
  apply (proj2 (proj2 (connect_true_means_both_bound
                         c "MockDevice MIDI In" "MockDevice MIDI Out"
                         eq_refl))).
Defined.

Lemma connect_out_loop_first_match
    (target : string) (pre : list string) (name : string) (post : list string) :
  forall (k : nat) (c : Client),
    accepts_all (midi_out c) ->
    no_match target pre = true ->
    contains target name = true ->
    let r := connect_out_loop target k (pre ++ name :: post) c in
    fst r = Returned true /\
    bound (midi_out (snd r)) = Some (Port (k + List.length pre)) /\
    midi_in (snd r) = midi_in c /\
    calls (midi_out (snd r))
    = (calls (midi_out c) ++ [close_port; open_port (k + List.length pre)])%list.
Proof.
  induction pre as [|p pre IH]; intros k c Hacc Hpre Hname.
  - cbn [app connect_out_loop List.length]. rewrite Hname, Nat.add_0_r.
    destruct c as [nm p_in [names b cs f] ti to inbox].
    unfold accepts_all in Hacc. cbn [midi_out faulty] in Hacc.
    unfold_client. rewrite !Hacc. cbn. rewrite <- app_assoc.
    repeat split.
  - cbn [no_match forallb] in Hpre. apply andb_prop in Hpre as [Hp Hpre].
    apply negb_true_iff in Hp.
    cbn [app connect_out_loop List.length]. rewrite Hp, Nat.add_succ_r.
    apply (IH (S k) c Hacc Hpre Hname).
Qed.

Lemma connect_in_loop_first_match
    (target : string) (pre : list string) (name : string) (post : list string) :
  forall (k : nat) (c : Client),
    accepts_all (midi_in c) ->
    no_match target pre = true ->
    contains target name = true ->
    let r := connect_in_loop target k (pre ++ name :: post) c in
    fst r = Returned true /\
    bound (midi_in (snd r)) = Some (Port (k + List.length pre)) /\
    midi_out (snd r) = midi_out c /\
    calls (midi_in (snd r))
    = (calls (midi_in c)
         ++ [close_port; open_port (k + List.length pre); set_callback])%list.
Proof.
  induction pre as [|p pre IH]; intros k c Hacc Hpre Hname.
  - cbn [app connect_in_loop List.length]. rewrite Hname, Nat.add_0_r.
    destruct c as [nm [names b cs f] p_out ti to inbox].
    unfold accepts_all in Hacc. cbn [midi_in faulty] in Hacc.
    unfold_client. rewrite !Hacc. cbn. rewrite <- !app_assoc.
    repeat split.
  - cbn [no_match forallb] in Hpre. apply andb_prop in Hpre as [Hp Hpre].
    apply negb_true_iff in Hp.
    cbn [app connect_in_loop List.length]. rewrite Hp, Nat.add_succ_r.
    apply (IH (S k) c Hacc Hpre Hname).
Qed.

(** X13: the first match wins.  When no call on the two port objects raises,
    the outbound names are [pre_out ++ name_out :: post_out] with
    [name_out] the first one that contains the device-inbound substring, and
    likewise for the inbound names, then [connect_to_device] returns [True]
    with the output port open on index [length pre_out] and the input port
    on index [length pre_in]; later names that match as well are not
    tried. *)
Theorem connect_first_match_wins
    (c : Client) (i o : string)
    (pre_out : list string) (name_out : string) (post_out : list string)
    (pre_in : list string) (name_in : string) (post_in : list string) :
  accepts_all (midi_out c) ->
  accepts_all (midi_in c) ->
  port_names (midi_out c) = (pre_out ++ name_out :: post_out)%list ->
  no_match i pre_out = true ->
  contains i name_out = true ->
  port_names (midi_in c) = (pre_in ++ name_in :: post_in)%list ->
  no_match o pre_in = true ->
  contains o name_in = true ->
  let r := connect_to_device i o c in
  fst r = Returned true /\
  bound (midi_out (snd r)) = Some (Port (List.length pre_out)) /\
  bound (midi_in (snd r)) = Some (Port (List.length pre_in)) /\
  calls (midi_out (snd r))
  = (calls (midi_out c)
       ++ [get_ports; close_port; open_port (List.length pre_out)])%list /\
  calls (midi_in (snd r))
  = (calls (midi_in c)
       ++ [get_ports; close_port; open_port (List.length pre_in);
           set_callback])%list.
Proof.
  intros Hao Hai Hpo Hno Hco Hpi Hni Hci r. subst r.
  unfold connect_to_device.
  rewrite (bind_returned _ _ c (set_targets i o c) tt eq_refl).
  set (c0 := snd (on_midi_out do_get_ports (set_targets i o c))).
  assert (Hacc0 : accepts_all (midi_out c0)).
  { destruct c as [nm p_in [names b cs f] ti to inbox]. exact Hao. }
  pose proof (connect_out_loop_first_match i pre_out name_out post_out
                0 c0 Hacc0 Hno Hco) as (R1 & B1 & I1 & C1).
  assert (E1 : outbound_leg i (set_targets i o c)
               = (Returned true,
                  snd (connect_out_loop i 0 (pre_out ++ name_out :: post_out) c0))).
  { rewrite outbound_leg_eq.
    change (port_names (midi_out (set_targets i o c)))
      with (port_names (midi_out c)).
    rewrite Hpo. fold c0.
    destruct (connect_out_loop i 0 (pre_out ++ name_out :: post_out) c0)
      as [x y]. cbn in R1 |- *. subst x. reflexivity. }
  rewrite (bind_returned _ _ _ _ _ E1). cbn [negb].
  set (c1 := snd (connect_out_loop i 0 (pre_out ++ name_out :: post_out) c0))
    in *.
  assert (Hmi1 : midi_in c1 = midi_in c).
  { rewrite I1. destruct c as [nm p_in [names b cs f] ti to inbox].
    reflexivity. }
  set (c1' := snd (on_midi_in do_get_ports c1)).
  assert (Hacc1 : accepts_all (midi_in c1')).
  { unfold c1'. destruct c1 as [nm p_in p_out ti to inbox].
    cbn [midi_in] in Hmi1. subst p_in.
    destruct c as [nm' [names b cs f] p_out' ti' to' inbox']. exact Hai. }
  pose proof (connect_in_loop_first_match o pre_in name_in post_in
                0 c1' Hacc1 Hni Hci) as (R2 & B2 & O2 & C2).
  assert (E2 : inbound_leg o c1
               = (Returned true,
                  snd (connect_in_loop o 0 (pre_in ++ name_in :: post_in) c1'))).
  { rewrite inbound_leg_eq. rewrite Hmi1, Hpi. fold c1'.
    destruct (connect_in_loop o 0 (pre_in ++ name_in :: post_in) c1')
      as [x y]. cbn in R2 |- *. subst x. reflexivity. }
  rewrite (bind_returned _ _ _ _ _ E2). cbn [negb andb ret fst snd].
  cbn [Nat.add] in B1, B2, C1, C2.
  assert (Hc0 : calls (midi_out c0) = (calls (midi_out c) ++ [get_ports])%list).
  { destruct c as [nm p_in [names b cs f] ti to inbox]. reflexivity. }
  assert (Hc1' : calls (midi_in c1') = (calls (midi_in c) ++ [get_ports])%list).
  { unfold c1'. destruct c1 as [nm p_in p_out ti to inbox].
    cbn [midi_in] in Hmi1. subst p_in. reflexivity. }
  assert (Ho1' : midi_out c1' = midi_out c1).
  { unfold c1'. destruct c1 as [nm p_in p_out ti to inbox]. reflexivity. }
  rewrite O2, Ho1', B1, B2, C1, C2, Hc0, Hc1', <- !app_assoc.
  repeat split.
Qed.

Lemma connect_first_match_wins_witness :
  let c := __init__ "ConnectClient"
             (fresh_port ["MockDevice MIDI Out"; "Some Other Input"]
                         never_raises)
             (fresh_port ["Other Port"; "MockDevice MIDI In";
                          "MockDevice MIDI In 2"] never_raises) in
  let r := connect_to_device "MockDevice MIDI In" "MockDevice MIDI Out" c in
  no_match "MockDevice MIDI In" ["Other Port"] = true /\
  contains "MockDevice MIDI In" "MockDevice MIDI In" = true /\
  fst r = Returned true /\
  bound (midi_out (snd r)) = Some (Port 1) /\
  bound (midi_in (snd r)) = Some (Port 0).
Proof.
  intros c r.
  split; [reflexivity | split; [reflexivity | ]].
  pose proof (connect_first_match_wins c
                "MockDevice MIDI In" "MockDevice MIDI Out"
                ["Other Port"] "MockDevice MIDI In" ["MockDevice MIDI In 2"]
                [] "MockDevice MIDI Out" ["Some Other Input"]
                (fun _ _ => eq_refl) (fun _ _ => eq_refl)
                eq_refl eq_refl eq_refl eq_refl eq_refl eq_refl)
    as (H1 & H2 & H3 & _).
  split; [exact H1 | split; [exact H2 | exact H3]].
Defined.

Lemma skipn_app_length {A} (l l' : list A) :
  skipn (List.length l) (l ++ l') = l'.
Proof. induction l as [|a l IH]; [reflexivity | exact IH]. Qed.

Lemma connect_out_loop_attempts (target : string) (ports : list string) :
  forall (k : nat) (c : Client),
    (forall h n, faulty (midi_out c) h (open_port n) <> None) ->
    let r := connect_out_loop target k ports c in
    fst r = Returned false /\
    midi_in (snd r) = midi_in c /\
    exists attempts,
      calls (midi_out (snd r)) = (calls (midi_out c) ++ attempts)%list /\
      Forall (fun call => call = close_port \/ exists n, call = open_port n)
             attempts /\
      (no_match target ports = false -> In close_port attempts).
Proof.
  induction ports as [|port_name rest IH]; intros k c Hopen.
  - cbn [connect_out_loop no_match forallb].
    repeat split. exists []. rewrite app_nil_r.
    repeat split; [constructor | discriminate].
  - cbn [connect_out_loop no_match forallb].
    destruct (contains target port_name) eqn:Hc; cbn [negb andb].
    + destruct c as [nm p_in [names b cs f] ti to inbox].
      cbn [midi_out faulty] in Hopen.
      destruct (f cs close_port) as [msg|] eqn:Eclose.
      * set (c2 := mkClient nm p_in
                     (mkMidiPort names b (cs ++ [close_port])%list f)
                     ti to inbox).
        assert (E : connect_out_loop target k (port_name :: rest)
                      (mkClient nm p_in (mkMidiPort names b cs f) ti to inbox)
                    = connect_out_loop target (S k) rest c2).
        { cbn [connect_out_loop]. rewrite Hc. unfold_client.
          rewrite Eclose. reflexivity. }
        cbn [connect_out_loop] in E. rewrite Hc in E. rewrite E.
        destruct (IH (S k) c2 Hopen) as (R & I & attempts & Hcalls & Hall & _).
        split; [exact R | split; [exact I | ]].
        exists (close_port :: attempts).
        split; [|split].
        -- rewrite Hcalls. cbn [c2 midi_out calls].
           rewrite <- app_assoc. reflexivity.
        -- constructor; [left; reflexivity | exact Hall].
        -- intros _. left. reflexivity.
      * set (c2 := mkClient nm p_in
                     (mkMidiPort names None
                        ((cs ++ [close_port]) ++ [open_port k])%list f)
                     ti to inbox).
        assert (E : connect_out_loop target k (port_name :: rest)
                      (mkClient nm p_in (mkMidiPort names b cs f) ti to inbox)
                    = connect_out_loop target (S k) rest c2).
        { cbn [connect_out_loop]. rewrite Hc. unfold_client.
          rewrite Eclose.
          destruct (f (cs ++ [close_port])%list (open_port k)) as [msg|] eqn:E;
            [reflexivity | exfalso; exact (Hopen _ _ E)]. }
        cbn [connect_out_loop] in E. rewrite Hc in E. rewrite E.
        destruct (IH (S k) c2 Hopen) as (R & I & attempts & Hcalls & Hall & _).
        split; [exact R | split; [exact I | ]].
        exists (close_port :: open_port k :: attempts).
        split; [|split].
        -- rewrite Hcalls. cbn [c2 midi_out calls].
           rewrite <- !app_assoc. reflexivity.
        -- constructor; [left; reflexivity | ].
           constructor; [right; exists k; reflexivity | exact Hall].
        -- intros _. left. reflexivity.
    + apply (IH (S k) c Hopen).
Qed.

(** X14: a failed first leg is not followed by the fallback.  When the MIDI
    library refuses every [open_port] on the output port,
    [connect_to_device] returns [False] straight after the first leg: the
    input port object is untouched, and the only calls made on the output
    port are [get_ports()] and the [close_port()] / [open_port(i)] of the
    attempts, with [close_port()] called when a name matches.
    [open_virtual_port] is not called: unlike a failure of the second leg,
    this path makes no attempt to re-open the client's own virtual output
    port on which [close_port()] has been called. *)
Theorem failed_outbound_leg_not_readvertised (c : Client) (i o : string) :
  (forall h n, faulty (midi_out c) h (open_port n) <> None) ->
  let r := connect_to_device i o c in
  fst r = Returned false /\
  midi_in (snd r) = midi_in c /\
  exists attempts,
    calls (midi_out (snd r))
    = (calls (midi_out c) ++ get_ports :: attempts)%list /\
    Forall (fun call => call = close_port \/ exists n, call = open_port n)
           attempts /\
    (no_match i (port_names (midi_out c)) = false -> In close_port attempts).
Proof.
  intros Hopen r. subst r.
  unfold connect_to_device.
  rewrite (bind_returned _ _ c (set_targets i o c) tt eq_refl).
  set (c0 := snd (on_midi_out do_get_ports (set_targets i o c))).
  assert (Hopen0 : forall h n, faulty (midi_out c0) h (open_port n) <> None).
  { destruct c as [nm p_in [names b cs f] ti to inbox]. exact Hopen. }
  pose proof (connect_out_loop_attempts i (port_names (midi_out c)) 0 c0
                Hopen0) as (R & I & attempts & Hcalls & Hall & Hin).
  assert (E : outbound_leg i (set_targets i o c)
              = (Returned false,
                 snd (connect_out_loop i 0 (port_names (midi_out c)) c0))).
  { rewrite outbound_leg_eq.
    change (port_names (midi_out (set_targets i o c)))
      with (port_names (midi_out c)). fold c0.
    destruct (connect_out_loop i 0 (port_names (midi_out c)) c0) as [x y].
    cbn in R |- *. subst x. reflexivity. }
  rewrite (bind_returned _ _ _ _ _ E). cbn [negb ret fst snd].
  assert (I0 : midi_in c0 = midi_in c).
  { destruct c as [nm p_in [names b cs f] ti to inbox]. reflexivity. }
  assert (C0 : calls (midi_out c0) = (calls (midi_out c) ++ [get_ports])%list).
  { destruct c as [nm p_in [names b cs f] ti to inbox]. reflexivity. }
  split; [reflexivity | split; [rewrite I; exact I0 | ]].
  exists attempts. split; [|split; assumption].
  rewrite Hcalls, C0, <- app_assoc. reflexivity.
Qed.

Lemma failed_outbound_leg_not_readvertised_witness :
  let p_out := fresh_port ["MockDevice MIDI In"]
                 (fun _ call => match call with
                                | open_port _ => Some "port busy"
                                | _ => None
                                end) in
  let c := __init__ "ConnectFailClient"
             (fresh_port ["MockDevice MIDI Out"] never_raises) p_out in
  let r := connect_to_device "MockDevice MIDI In" "MockDevice MIDI Out" c in
  no_match "MockDevice MIDI In" (port_names (midi_out c)) = false /\
  calls (midi_out (snd r))
  = [open_virtual_port "ConnectFailClient Out"; get_ports; close_port;
     open_port 0] /\
  fst r = Returned false /\
  midi_in (snd r) = midi_in c.
Proof.
  intros p_out c r.
  split; [reflexivity | split; [reflexivity | ]].
  pose proof (failed_outbound_leg_not_readvertised c
                "MockDevice MIDI In" "MockDevice MIDI Out"
                (fun _ _ (H : Some "port busy" = None) =>
                   eq_ind (Some "port busy")
                          (fun x => match x with Some _ => True | None => False end)
                          I None H))
    as (H1 & H2 & _).
  split; [exact H1 | exact H2].
Defined.

(** X15: the client is constructed whether or not its virtual ports open,
    and its callback is installed exactly when the input port opened:
    [__init__] on fresh port objects leaves an empty inbox; the input port is
    bound to the virtual port [<name> In] exactly when the library accepted
    [open_virtual_port], and [set_callback] has been called exactly in that
    case. *)
Theorem client_init_callback_iff_input_open
    (name : string) (names_in names_out : list string)
    (oracle_in oracle_out : list Call -> Call -> option string) :
  let c := __init__ name (fresh_port names_in oracle_in)
                         (fresh_port names_out oracle_out) in
  _received_messages c = [] /\
  (bound (midi_in c) = Some (Virtual (name ++ " In"))
   <-> oracle_in [] (open_virtual_port (name ++ " In")) = None) /\
  (In set_callback (calls (midi_in c))
   <-> oracle_in [] (open_virtual_port (name ++ " In")) = None) /\
  (bound (midi_out c) = Some (Virtual (name ++ " Out"))
   <-> oracle_out [] (open_virtual_port (name ++ " Out")) = None).
Proof.
  cbv [__init__ _open_client_ports fresh_port].
  unfold_client. cbn [app].
  destruct (oracle_in [] (open_virtual_port (name ++ " In"))) as [e1|];
    destruct (oracle_out [] (open_virtual_port (name ++ " Out"))) as [e2|];
    cbn; repeat split; intros H; try discriminate H; try reflexivity;
    try (right; right; left; reflexivity);
    try (destruct H as [H|[H|H]]; try discriminate H; contradiction).
Qed.

Lemma set_received_messages_same (c : Client) :
  set_received_messages (_received_messages c) c = c.
Proof. destruct c. reflexivity. Qed.

Lemma set_received_messages_twice (l l' : list (list Z)) (c : Client) :
  set_received_messages l (set_received_messages l' c)
  = set_received_messages l c.
Proof. reflexivity. Qed.

Lemma delivered_between_succ
    (delivered : nat -> list (list Z)) (k n : nat) :
  delivered_between delivered k (S n)
  = (delivered k ++ delivered_between delivered (S k) n)%list.
Proof. reflexivity. Qed.

Lemma pop_loop_account
    (time_time : nat -> Q) (delivered : nat -> list (list Z))
    (start_time timeout_sec : Q) (fuel : nat) :
  forall (k : nat) (c : Client) (res : option (list Z)) (c' : Client),
    pop_loop time_time delivered fuel start_time timeout_sec k c
    = Some (res, c') ->
    exists n,
      (forall j, (j < n)%nat ->
         (time_time (k + j)%nat - start_time < timeout_sec)%Q /\
         (_received_messages c ++ delivered_between delivered k j)%list = [])
      /\ c' = set_received_messages (_received_messages c') c
      /\ match res with
         | Some frame =>
             (time_time (k + n)%nat - start_time < timeout_sec)%Q /\
             (_received_messages c ++ delivered_between delivered k n)%list
             = frame :: _received_messages c'
         | None =>
             ((0 < timeout_sec)%Q ->
              (timeout_sec < 2 * (time_time (k + n)%nat - start_time))%Q) /\
             (_received_messages c ++ delivered_between delivered k n)%list
             = _received_messages c'
         end.
Proof.
  induction fuel as [|fuel IH]; intros k c res c' H.
  - discriminate H.
  - cbn [pop_loop] in H.
    destruct (Qlt_le_dec (time_time k - start_time) timeout_sec) as [Hlt|Hge].
    + destruct (_received_messages c) as [|first rest] eqn:Hq.
      * apply IH in H as (n & Hsleeps & Hc & Hres).
        cbn [_received_messages set_received_messages app] in Hsleeps, Hres.
        exists (S n). split; [|split].
        -- intros [|j] Hj.
           ++ rewrite Nat.add_0_r. split; [exact Hlt | reflexivity].
           ++ rewrite Nat.add_succ_r, delivered_between_succ.
              apply (Hsleeps j). lia.
        -- rewrite set_received_messages_twice in Hc. exact Hc.
        -- rewrite Nat.add_succ_r, delivered_between_succ. exact Hres.
      * injection H as <- <-. exists 0%nat.
        split; [intros j Hj; lia | split; [reflexivity | ]].
        rewrite Nat.add_0_r. unfold delivered_between.
        cbn [seq map List.concat]. rewrite app_nil_r.
        split; [exact Hlt | reflexivity].
    + injection H as <- <-. exists 0%nat.
      split; [intros j Hj; lia | split].
      * symmetry. apply set_received_messages_same.
      * rewrite Nat.add_0_r. unfold delivered_between.
        cbn [seq map List.concat]. rewrite app_nil_r.
        split; [intros Hpos; lra | reflexivity].
Qed.

(** X16: popping loses, duplicates and reorders nothing, and gives up no
    earlier than it should.  When [pop_received_message] returns, it has gone
    through some number [n] of sleeps, each taken with time left and with
    nothing to return (the inbox and everything delivered before that sleep
    empty).  If it returns a frame, there was time left and the frames that
    were in the inbox, followed by those delivered during these [n] sleeps,
    are that frame followed by the frames left in the inbox: the frame
    returned is the oldest one.  If it returns [None], the inbox left holds
    all of them, and the reading that ended the wait was more than half the
    timeout after the first one.  Nothing else of the client changes.  (The
    clock conditions are stated so that they hold whether the difference of
    two readings is taken exactly, as here, or rounded to a float.) *)
Theorem pop_conserves_frames
    (time_time : nat -> Q) (delivered : nat -> list (list Z))
    (fuel : nat) (timeout_sec : Q) (c : Client)
    (res : option (list Z)) (c' : Client) :
  pop_received_message time_time delivered fuel timeout_sec c
  = Some (res, c') ->
  exists n,
    (forall j, (j < n)%nat ->
       (time_time (1 + j)%nat - time_time 0%nat < timeout_sec)%Q /\
       (_received_messages c ++ delivered_between delivered 1 j)%list = [])
    /\ c' = set_received_messages (_received_messages c') c
    /\ match res with
       | Some frame =>
           (time_time (1 + n)%nat - time_time 0%nat < timeout_sec)%Q /\
           (_received_messages c ++ delivered_between delivered 1 n)%list
           = frame :: _received_messages c'
       | None =>
           ((0 < timeout_sec)%Q ->
            (timeout_sec
             < 2 * (time_time (1 + n)%nat - time_time 0%nat))%Q) /\
           (_received_messages c ++ delivered_between delivered 1 n)%list
           = _received_messages c'
       end.
Proof.
  unfold pop_received_message. apply pop_loop_account.
Qed.

Lemma pop_conserves_frames_witness :
  let c := __init__ "MockTestClient"
             (fresh_port [] never_raises) (fresh_port [] never_raises) in
  let time_time := fun k => (Z.of_nat k # 1000)%Q in
  let delivered := fun k => match k with
                            | 2%nat => [[0xF0; 0xF7]; [0x90; 0x40; 0x70]]
                            | _ => []
                            end in
  pop_received_message time_time delivered 10 (1 # 100)%Q c
  = Some (Some [0xF0; 0xF7],
          set_received_messages [[0x90; 0x40; 0x70]] c) /\
  exists n,
    (_received_messages c ++ delivered_between delivered 1 n)%list
    = [[0xF0; 0xF7]; [0x90; 0x40; 0x70]].
Proof.
  intros c time_time delivered.
  split; [reflexivity | ].
  destruct (pop_conserves_frames time_time delivered 10 (1 # 100)%Q c
              (Some [0xF0; 0xF7])
              (set_received_messages [[0x90; 0x40; 0x70]] c) eq_refl)
    as (n & _ & _ & _ & Hn).
  exists n. exact Hn.
Defined.

(** X17: frames pushed by the callback are popped in arrival order, each
    once.  After [_on_midi_message] has appended [a] and then [b] to an empty
    inbox, a pop with time to spare returns [a], the next one returns [b],
    and the inbox is empty again.  Time to spare means a positive timeout and
    a first reading inside the loop no more than half the timeout after the
    starting one; with this margin the comparison comes out the same whether
    the difference of the readings is taken exactly, as here, or rounded to a
    float, as [time.time() - start_time] is. *)
Theorem pushed_frames_pop_in_order
    (c : Client) (a b : list Z)
    (time1 time2 : nat -> Q) (delivered1 delivered2 : nat -> list (list Z))
    (fuel1 fuel2 : nat) (timeout_sec : Q) :
  _received_messages c = [] ->
  (0 < timeout_sec)%Q ->
  (2 * (time1 1%nat - time1 0%nat) <= timeout_sec)%Q ->
  (2 * (time2 1%nat - time2 0%nat) <= timeout_sec)%Q ->
  let pushed := snd (_on_midi_message b (snd (_on_midi_message a c))) in
  pop_received_message time1 delivered1 (S fuel1) timeout_sec pushed
  = Some (Some a, set_received_messages [b] c) /\
  pop_received_message time2 delivered2 (S fuel2) timeout_sec
    (set_received_messages [b] c)
  = Some (Some b, c).
Proof.
  intros Hq Hpos H1 H2 pushed. subst pushed.
  destruct c as [nm p_in p_out ti to inbox]. cbn in Hq. subst inbox.
  unfold pop_received_message. cbn [pop_loop].
  destruct (Qlt_le_dec (time1 1%nat - time1 0%nat) timeout_sec) as [_|H];
    [|exfalso; lra].
  destruct (Qlt_le_dec (time2 1%nat - time2 0%nat) timeout_sec) as [_|H];
    [|exfalso; lra].
  split; reflexivity.
Qed.

Lemma pushed_frames_pop_in_order_witness :
  let c := __init__ "MockTestClient"
             (fresh_port [] never_raises) (fresh_port [] never_raises) in
  let time_time := fun k => (Z.of_nat k # 1000)%Q in
  _received_messages c = [] /\
  (0 < 1 # 100)%Q /\
  (2 * (time_time 1%nat - time_time 0%nat) <= 1 # 100)%Q /\
  pop_received_message time_time (fun _ => []) 1 (1 # 100)%Q
    (snd (_on_midi_message [0x90; 0x40; 0x70]
            (snd (_on_midi_message [0xB0; 0x07; 0x7F] c))))
  = Some (Some [0xB0; 0x07; 0x7F],
          set_received_messages [[0x90; 0x40; 0x70]] c).
Proof.
  intros c time_time.
  assert (Hpos : (0 < 1 # 100)%Q) by reflexivity.
  assert (H : (2 * (time_time 1%nat - time_time 0%nat) <= 1 # 100)%Q)
    by (intros E; discriminate E).
  split; [reflexivity | split; [exact Hpos | split; [exact H | ]]].
  apply (proj1 (pushed_frames_pop_in_order c
                  [0xB0; 0x07; 0x7F] [0x90; 0x40; 0x70]
                  time_time time_time (fun _ => []) (fun _ => [])
                  0 0 (1 # 100)%Q eq_refl Hpos H H)).
Defined.

Lemma pop_loop_ends
    (time_time : nat -> Q) (delivered : nat -> list (list Z))
    (start_time timeout_sec : Q) (n : nat) :
  (timeout_sec <= time_time n - start_time)%Q ->
  forall (fuel k : nat) (c : Client),
    (k <= n)%nat -> (n - k < fuel)%nat ->
    exists r,
      pop_loop time_time delivered fuel start_time timeout_sec k c = Some r.
Proof.
  intros Hn. induction fuel as [|fuel IH]; intros k c Hk Hf.
  - lia.
  - cbn [pop_loop].
    destruct (Qlt_le_dec (time_time k - start_time) timeout_sec) as [Hlt|Hge].
    + destruct (_received_messages c) as [|first rest].
      * assert (k <> n) by (intros ->; lra).
        apply IH; lia.
      * eexists. reflexivity.
    + eexists. reflexivity.
Qed.

(** X18: [pop_received_message] does not block for ever.  Once some reading
    of the clock, the one number [n] say, is at least [timeout_sec] after the
    first, the call has returned by then: with fuel for [n] turns of the loop
    it gives a result, whatever arrives in the inbox meanwhile. *)
Theorem pop_returns_once_timeout_reached
    (time_time : nat -> Q) (delivered : nat -> list (list Z))
    (n fuel : nat) (timeout_sec : Q) (c : Client) :
  (1 <= n)%nat ->
  (timeout_sec <= time_time n - time_time 0%nat)%Q ->
  (n <= fuel)%nat ->
  exists r,
    pop_received_message time_time delivered fuel timeout_sec c = Some r.
Proof.
  intros H1 Hn Hf. unfold pop_received_message.
  apply (pop_loop_ends time_time delivered (time_time 0%nat) timeout_sec n Hn);
    lia.
Qed.

Lemma pop_returns_once_timeout_reached_witness :
  let c := __init__ "MockTestClient"
             (fresh_port [] never_raises) (fresh_port [] never_raises) in
  let time_time := fun k => (Z.of_nat k # 200)%Q in
  (1 <= 2)%nat /\
  (1 # 100 <= time_time 2%nat - time_time 0%nat)%Q /\
  exists r,
    pop_received_message time_time (fun _ => []) 2 (1 # 100)%Q c = Some r.
Proof.
  intros c time_time.
  assert (H : (1 # 100 <= time_time 2%nat - time_time 0%nat)%Q)
    by (intros E; discriminate E).
  split; [lia | split; [exact H | ]].
  apply (pop_returns_once_timeout_reached time_time (fun _ => []) 2 2
           (1 # 100)%Q c); [lia | exact H | lia].
Defined.

Lemma pop_loop_empty
    (time_time : nat -> Q) (delivered : nat -> list (list Z))
    (start_time timeout_sec : Q) (n : nat) (c : Client) :
  (forall k, delivered k = []) ->
  _received_messages c = [] ->
  (timeout_sec <= time_time n - start_time)%Q ->
  forall (fuel k : nat),
    (k <= n)%nat -> (n - k < fuel)%nat ->
    pop_loop time_time delivered fuel start_time timeout_sec k c
    = Some (None, c).
Proof.
  intros Hd Hq Hn. induction fuel as [|fuel IH]; intros k Hk Hf.
  - lia.
  - cbn [pop_loop].
    destruct (Qlt_le_dec (time_time k - start_time) timeout_sec) as [Hlt|Hge].
    + rewrite Hq, Hd. cbn [app]. rewrite <- Hq, set_received_messages_same.
      assert (k <> n) by (intros ->; lra).
      apply IH; lia.
    + reflexivity.
Qed.

(** X19: on an empty inbox into which nothing is delivered,
    [pop_received_message] returns [None] and leaves the client as it was,
    once the clock has reached the timeout. *)
Theorem pop_on_empty_inbox_times_out
    (time_time : nat -> Q) (delivered : nat -> list (list Z))
    (n fuel : nat) (timeout_sec : Q) (c : Client) :
  (forall k, delivered k = []) ->
  _received_messages c = [] ->
  (1 <= n)%nat ->
  (timeout_sec <= time_time n - time_time 0%nat)%Q ->
  (n <= fuel)%nat ->
  pop_received_message time_time delivered fuel timeout_sec c
  = Some (None, c).
Proof.
  intros Hd Hq H1 Hn Hf. unfold pop_received_message.
  apply (pop_loop_empty time_time delivered (time_time 0%nat) timeout_sec n c
           Hd Hq Hn); lia.
Qed.

Lemma pop_on_empty_inbox_times_out_witness :
  let c := snd (clear_received_messages
                  (snd (_on_midi_message [0x90; 0x40; 0x70]
                          (__init__ "MockTestClient"
                             (fresh_port [] never_raises)
                             (fresh_port [] never_raises))))) in
  let time_time := fun k => (Z.of_nat k # 200)%Q in
  _received_messages c = [] /\
  (1 # 100 <= time_time 2%nat - time_time 0%nat)%Q /\
  pop_received_message time_time (fun _ => []) 5 (1 # 100)%Q c
  = Some (None, c).
Proof.
  intros c time_time.
  assert (H : (1 # 100 <= time_time 2%nat - time_time 0%nat)%Q)
    by (intros E; discriminate E).
  split; [reflexivity | split; [exact H | ]].
  apply (pop_on_empty_inbox_times_out time_time (fun _ => []) 2 5
           (1 # 100)%Q c (fun _ => eq_refl) eq_refl);
    [lia | exact H | lia].
Defined.

End ClientMore.

(** ** Properties of [shutdown], of the device's construction and of [run] *)

Module LifeCycle.
Import PyFacts client client_views.

Ltac unfold_ports :=
  cbv [bind try_except do_close_port do_open_port
       do_set_callback do_get_ports do_is_port_open do_open_virtual_port
       invoke query ret raise gets modify is_RtMidiError is_IOError
       record_call set_bound calls faulty bound port_names fst snd].

Ltac unfold_client_object :=
  cbv [client_object.shutdown client_object.on_self
       client_object.del_midi_in client_object.del_midi_out
       client_object.self client_object.has_midi_in
       client_object.has_midi_out
       on_midi_in on_midi_out midi_in midi_out
       client_port_name target_device_in_port_name
       target_device_out_port_name _received_messages];
  unfold_ports.

(** X20: [Client.shutdown] closes what is open.  On a client that still has
    both port attributes, and whose ports accept [close_port], it returns
    normally, both ports end up closed and both attributes are deleted; each
    port sees [is_port_open()], and [close_port()] once if it was open. *)
Theorem client_shutdown_closes_ports (o : client_object.ClientObject) :
  client_object.has_midi_in o = true ->
  client_object.has_midi_out o = true ->
  (forall h, faulty (midi_in (client_object.self o)) h close_port = None) ->
  (forall h, faulty (midi_out (client_object.self o)) h close_port = None) ->
  let c := client_object.self o in
  let r := client_object.shutdown o in
  let c' := client_object.self (snd r) in
  fst r = Returned tt /\
  bound (midi_in c') = None /\
  bound (midi_out c') = None /\
  client_object.has_midi_in (snd r) = false /\
  client_object.has_midi_out (snd r) = false /\
  calls (midi_in c')
  = (calls (midi_in c) ++ is_port_open ::
       match bound (midi_in c) with Some _ => [close_port] | None => [] end)%list
  /\
  calls (midi_out c')
  = (calls (midi_out c) ++ is_port_open ::
       match bound (midi_out c) with Some _ => [close_port] | None => [] end)%list.
Proof.
  destruct o as [[nm [n_in b_in cs_in f_in] [n_out b_out cs_out f_out] ti to inbox]
                   h_in h_out].
  cbn [client_object.has_midi_in client_object.has_midi_out
       client_object.self midi_in midi_out faulty].
  intros -> -> Hin Hout.
  unfold_client_object.
  destruct b_in, b_out; rewrite ?Hin, ?Hout; cbv beta iota;
    rewrite ?Hin, ?Hout; cbv beta iota; rewrite <- ?app_assoc;
    repeat split.
Qed.

Lemma client_shutdown_closes_ports_witness :
  let o := client_object.new "MockTestClient"
             (fresh_port [] never_raises) (fresh_port [] never_raises) in
  let r := client_object.shutdown o in
  client_object.has_midi_in o = true /\
  client_object.has_midi_out o = true /\
  bound (midi_in (client_object.self o)) = Some (Virtual "MockTestClient In") /\
  fst r = Returned tt /\
  bound (midi_in (client_object.self (snd r))) = None.
Proof.
  intros o r.
  split; [reflexivity | split; [reflexivity | split; [reflexivity | ]]].
  pose proof (client_shutdown_closes_ports o eq_refl eq_refl
                (fun _ => eq_refl) (fun _ => eq_refl)) as (H1 & H2 & _).
  split; [exact H1 | exact H2].
Defined.

(** X21: [Client.shutdown] can be repeated.  After a call that returned
    normally, a second call makes no call on either port and changes nothing:
    the attributes are gone, so [close_port] is called at most once per port
    however often the client is shut down. *)
Theorem client_shutdown_twice (o : client_object.ClientObject) :
  fst (client_object.shutdown o) = Returned tt ->
  client_object.shutdown (snd (client_object.shutdown o))
  = (Returned tt, snd (client_object.shutdown o)).
Proof.
  destruct o as [[nm [n_in b_in cs_in f_in] [n_out b_out cs_out f_out] ti to inbox]
                   h_in h_out].
  unfold_client_object.
  destruct h_in, h_out, b_in, b_out; cbv beta iota;
    repeat match goal with
      | |- context [f_in ?h ?c] => destruct (f_in h c); cbv beta iota
      | |- context [f_out ?h ?c] => destruct (f_out h c); cbv beta iota
      end;
    intros H; try discriminate H; reflexivity.
Qed.

Lemma client_shutdown_twice_witness :
  let o := client_object.new "MockTestClient"
             (fresh_port [] never_raises) (fresh_port [] never_raises) in
  fst (client_object.shutdown o) = Returned tt /\
  calls (midi_in (client_object.self
                    (snd (client_object.shutdown
                            (snd (client_object.shutdown o))))))
  = [open_virtual_port "MockTestClient In"; is_port_open; set_callback;
     is_port_open; close_port].
Proof.
  intros o. split; [reflexivity | ].
  rewrite (client_shutdown_twice o eq_refl). reflexivity.
Defined.

Ltac unfold_device_object :=
  cbv [device_object.shutdown device_object.__init__
       device_object._setup_ports device_object.os_remove_log
       device_object.on_midi_in device_object.on_midi_out
       device_object.set_shutdown_flag device_object.set_log_exists
       device_object.del_midi_in device_object.del_midi_out
       device_object.port_name device_object.midi_in device_object.midi_out
       device_object.has_midi_in device_object.has_midi_out
       device_object.shutdown_flag device_object.log_exists
       device_object.remove_fault fresh_port];
  unfold_ports.

Ltac split_oracles f :=
  repeat match goal with
    | |- context [f ?h ?c] =>
        destruct (f h c) eqn:?; cbv beta iota; cbn [app]
    end.

(** X22: [Device.shutdown] sets the shutdown flag and closes what is open.
    On a device that still has both port attributes, and whose ports accept
    [close_port], it returns normally with the flag set, both ports closed
    and both attributes deleted. *)
Theorem device_shutdown_closes_ports (o : device_object.DeviceObject) :
  device_object.has_midi_in o = true ->
  device_object.has_midi_out o = true ->
  (forall h, faulty (device_object.midi_in o) h close_port = None) ->
  (forall h, faulty (device_object.midi_out o) h close_port = None) ->
  let r := device_object.shutdown o in
  fst r = Returned tt /\
  device_object.shutdown_flag (snd r) = true /\
  bound (device_object.midi_in (snd r)) = None /\
  bound (device_object.midi_out (snd r)) = None /\
  device_object.has_midi_in (snd r) = false /\
  device_object.has_midi_out (snd r) = false.
Proof.
  destruct o as [nm [n_in b_in cs_in f_in] [n_out b_out cs_out f_out]
                   h_in h_out flag le rf].
  cbn [device_object.has_midi_in device_object.has_midi_out
       device_object.midi_in device_object.midi_out faulty].
  intros -> -> Hin Hout.
  unfold_device_object.
  destruct b_in, b_out; rewrite ?Hin, ?Hout; cbv beta iota;
    rewrite ?Hin, ?Hout; cbv beta iota; repeat split.
Qed.

Lemma device_shutdown_closes_ports_witness :
  let o := snd (device_object.__init__ "TestMIDIDevice"
                  (fresh_port [] never_raises) (fresh_port [] never_raises)
                  false None) in
  let r := device_object.shutdown o in
  device_object.has_midi_in o = true /\
  device_object.has_midi_out o = true /\
  bound (device_object.midi_out o) = Some (Virtual "TestMIDIDevice Out") /\
  fst r = Returned tt /\
  bound (device_object.midi_out (snd r)) = None.
Proof.
  intros o r.
  split; [reflexivity | split; [reflexivity | split; [reflexivity | ]]].
  pose proof (device_shutdown_closes_ports o eq_refl eq_refl
                (fun _ => eq_refl) (fun _ => eq_refl))
    as (H1 & _ & _ & H2 & _).
  split; [exact H1 | exact H2].
Defined.

(** X23: [Device.shutdown] can be repeated ([run] calls it in its [finally]
    clause, and a caller may call it again).  After a call that returned
    normally, a second call makes no call on either port and changes
    nothing. *)
Theorem device_shutdown_twice (o : device_object.DeviceObject) :
  fst (device_object.shutdown o) = Returned tt ->
  device_object.shutdown (snd (device_object.shutdown o))
  = (Returned tt, snd (device_object.shutdown o)).
Proof.
  destruct o as [nm [n_in b_in cs_in f_in] [n_out b_out cs_out f_out]
                   h_in h_out flag le rf].
  unfold_device_object.
  destruct h_in, h_out, b_in, b_out; cbv beta iota;
    repeat match goal with
      | |- context [f_in ?h ?c] => destruct (f_in h c); cbv beta iota
      | |- context [f_out ?h ?c] => destruct (f_out h c); cbv beta iota
      end;
    intros H; try discriminate H; reflexivity.
Qed.

Lemma device_shutdown_twice_witness :
  let o := snd (device_object.__init__ "TestMIDIDevice"
                  (fresh_port [] never_raises) (fresh_port [] never_raises)
                  false None) in
  fst (device_object.shutdown o) = Returned tt /\
  calls (device_object.midi_out
           (snd (device_object.shutdown (snd (device_object.shutdown o)))))
  = [open_virtual_port "TestMIDIDevice Out"; is_port_open; close_port].
Proof.
  intros o. split; [reflexivity | ].
  rewrite (device_shutdown_twice o eq_refl). reflexivity.
Defined.

(** X24: no [RtMidiError] raised by [open_virtual_port] or [open_port], and
    no [OSError] raised by [os.remove], escapes [Device.__init__]: whichever
    of these calls is refused, the device is constructed, with both port
    attributes, the shutdown flag clear, and the callback installed exactly
    when the input port is open.  ([get_ports], [is_port_open] and
    [set_callback], which [_setup_ports] calls outside any [try], are taken
    to return, as everywhere in this model; an exception from one of them
    would escape.) *)
Theorem device_init_catches_refused_port_calls
    (name : string) (names_in names_out : list string)
    (oracle_in oracle_out : list Call -> Call -> option string)
    (log_exists : bool) (remove_fault : option string) :
  let r := device_object.__init__ name
             (fresh_port names_in oracle_in) (fresh_port names_out oracle_out)
             log_exists remove_fault in
  fst r = Returned tt /\
  device_object.has_midi_in (snd r) = true /\
  device_object.has_midi_out (snd r) = true /\
  device_object.shutdown_flag (snd r) = false /\
  (In set_callback (calls (device_object.midi_in (snd r)))
   <-> bound (device_object.midi_in (snd r)) <> None).
Proof.
  unfold_device_object. cbn [app].
  destruct names_in, names_out, log_exists, remove_fault.
  all: split_oracles oracle_in; split_oracles oracle_out.
  all: repeat split.
  all: first
    [ intros _; discriminate
    | intros _; cbn; tauto
    | intros H; exfalso; apply H; reflexivity
    | cbn; intros H;
      repeat (destruct H as [H|H]; try discriminate H); contradiction ].
Qed.

(** X25: the fallback of [_setup_ports].  When the virtual input port cannot
    be opened, the device asks for the system's input ports: if none is
    listed the input port stays closed and no callback is installed; if one
    is listed the device opens index 0 and, when that is accepted, installs
    the callback there. *)
Theorem device_input_falls_back_to_first_port
    (name : string) (names_in names_out : list string)
    (oracle_in oracle_out : list Call -> Call -> option string)
    (log_exists : bool) (remove_fault : option string) :
  oracle_in [] (open_virtual_port (name ++ " In")) <> None ->
  let o := snd (device_object.__init__ name
                  (fresh_port names_in oracle_in)
                  (fresh_port names_out oracle_out)
                  log_exists remove_fault) in
  match names_in with
  | [] =>
      bound (device_object.midi_in o) = None /\
      calls (device_object.midi_in o)
      = [open_virtual_port (name ++ " In"); get_ports; is_port_open]
  | _ :: _ =>
      match oracle_in [open_virtual_port (name ++ " In"); get_ports]
                      (open_port 0) with
      | None =>
          bound (device_object.midi_in o) = Some (Port 0) /\
          calls (device_object.midi_in o)
          = [open_virtual_port (name ++ " In"); get_ports; open_port 0;
             is_port_open; set_callback]
      | Some _ =>
          bound (device_object.midi_in o) = None /\
          calls (device_object.midi_in o)
          = [open_virtual_port (name ++ " In"); get_ports; open_port 0;
             is_port_open]
      end
  end.
Proof.
  intros Hv.
  unfold_device_object. cbn [app].
  destruct (oracle_in [] (open_virtual_port (name ++ " In"))) as [e1|];
    [|contradiction].
  cbv beta iota. cbn [app].
  destruct names_in as [|first_in rest_in];
    [|destruct (oracle_in [open_virtual_port (name ++ " In"); get_ports]
                  (open_port 0)) as [e1'|]];
    cbv beta iota; cbn [app].
  all: destruct names_out, log_exists, remove_fault.
  all: split_oracles oracle_out.
  all: split; reflexivity.
Qed.

Lemma device_input_falls_back_to_first_port_witness :
  let oracle_in := fun (_ : list Call) (call : Call) =>
                     match call with
                     | open_virtual_port _ => Some "virtual ports unsupported"
                     | _ => None
                     end in
  let o := snd (device_object.__init__ "TestMIDIDevice"
                  (fresh_port ["loopMIDI Port"] oracle_in)
                  (fresh_port [] never_raises) false None) in
  oracle_in [] (open_virtual_port "TestMIDIDevice In") <> None /\
  bound (device_object.midi_in o) = Some (Port 0).
Proof.
  intros oracle_in o.
  assert (H : oracle_in [] (open_virtual_port "TestMIDIDevice In") <> None)
    by discriminate.
  split; [exact H | ].
  apply (proj1 (device_input_falls_back_to_first_port
                  "TestMIDIDevice" ["loopMIDI Port"] [] oracle_in never_raises
                  false None H)).
Defined.

(** X26: a new device starts without a log file, unless removing the old one
    failed: after [Device.__init__] the log file exists exactly when it
    existed before and [os.remove] raised. *)
Theorem device_init_clears_log
    (name : string) (p_in p_out : MidiPort)
    (log_exists : bool) (remove_fault : option string) :
  device_object.log_exists
    (snd (device_object.__init__ name p_in p_out log_exists remove_fault))
  = log_exists && match remove_fault with Some _ => true | None => false end.
Proof.
  destruct p_in as [n_in b_in cs_in f_in], p_out as [n_out b_out cs_out f_out].
  unfold_device_object.
  destruct n_in, n_out, b_in, b_out, log_exists, remove_fault.
  all: split_oracles f_in; split_oracles f_out.
  all: reflexivity.
Qed.

Lemma run_loop_some
    (flag_set interrupted : nat -> bool) (fuel : nat) :
  forall (k : nat) (o o' : device_object.DeviceObject),
    device_object.run_loop flag_set interrupted fuel k o = Some o' ->
    device_object.shutdown_flag o = true \/
    exists j, flag_set j = true \/ interrupted j = true.
Proof.
  induction fuel as [|fuel IH]; intros k o o' H.
  - discriminate H.
  - cbn [device_object.run_loop] in H.
    destruct (device_object.shutdown_flag o) eqn:Hflag; [left; reflexivity|].
    destruct (interrupted k) eqn:Hi; [right; exists k; right; exact Hi|].
    destruct (flag_set k) eqn:Hs; [right; exists k; left; exact Hs|].
    apply IH in H as [H|H]; [congruence | right; exact H].
Qed.

Lemma run_loop_stops
    (flag_set interrupted : nat -> bool) (n : nat) :
  forall (k : nat) (o : device_object.DeviceObject),
    flag_set (k + n)%nat = true \/ interrupted (k + n)%nat = true ->
    exists o',
      device_object.run_loop flag_set interrupted (n + 2) k o = Some o'.
Proof.
  induction n as [|n IH]; intros k o H.
  - rewrite Nat.add_0_r in H. cbn [Nat.add device_object.run_loop].
    destruct (device_object.shutdown_flag o); [eexists; reflexivity|].
    destruct (interrupted k); [eexists; reflexivity|].
    destruct H as [H|H]; [|discriminate H]. rewrite H.
    cbn. eexists. reflexivity.
  - cbn [Nat.add device_object.run_loop].
    destruct (device_object.shutdown_flag o); [eexists; reflexivity|].
    destruct (interrupted k); [eexists; reflexivity|].
    apply IH. rewrite Nat.add_succ_comm. exact H.
Qed.

(** X27: [run] returns exactly when it is stopped: if the shutdown flag is
    already set, or another thread sets it, or [KeyboardInterrupt] arrives
    during some sleep; otherwise the loop goes on for ever. *)
Theorem run_returns_iff_stopped
    (flag_set interrupted : nat -> bool) (o : device_object.DeviceObject) :
  (exists fuel r, device_object.run flag_set interrupted fuel o = Some r)
  <->
  (device_object.shutdown_flag o = true \/
   exists k, flag_set k = true \/ interrupted k = true).
Proof.
  unfold device_object.run. split.
  - intros (fuel & r & H).
    destruct (device_object.run_loop flag_set interrupted fuel 0 o) as [o'|] eqn:E;
      [|discriminate H].
    exact (run_loop_some flag_set interrupted fuel 0 o o' E).
  - intros [H | [k H]].
    + exists 1%nat. cbn [device_object.run_loop]. rewrite H.
      eexists. reflexivity.
    + destruct (run_loop_stops flag_set interrupted k 0 o H) as [o' E].
      exists (k + 2)%nat. rewrite E. eexists. reflexivity.
Qed.

End LifeCycle.

(** ** The client and the device together *)

Module Protocol.
Import PyFacts client client_views.

Lemma emitted_send_midi_message (message_list : list Z) (c : Client) :
  emitted (send_midi_message message_list) c
  = match bound (midi_out c) with
    | Some _ => [message_list]
    | None => []
    end.
Proof.
  destruct c as [nm p_in [names b cs f] ti to inbox].
  unfold emitted, send_midi_message.
  cbv [bind on_midi_out do_is_port_open do_send_message invoke query ret
       record_call midi_out midi_in calls faulty bound port_names
       client_port_name target_device_in_port_name
       target_device_out_port_name _received_messages fst snd].
  destruct b.
  - destruct (f (cs ++ [is_port_open])%list (send_message message_list));
      cbv beta iota; rewrite <- app_assoc, ClientMore.skipn_app_length;
      reflexivity.
  - cbv beta iota. rewrite ClientMore.skipn_app_length. reflexivity.
Qed.

Lemma emitted_member (message_list m : list Z) (c : Client) :
  In m (emitted (send_midi_message message_list) c) -> m = message_list.
Proof.
  rewrite emitted_send_midi_message.
  destruct (bound (midi_out c)); intros H.
  - destruct H as [H|H]; [symmetry; exact H | contradiction].
  - contradiction.
Qed.

(** X28: the parameter commands of the client are not handled by the device.
    Every frame [send_set_parameter] or [send_get_parameter] hands to the
    MIDI library is dropped by the device's callback: it returns, sends
    nothing and writes nothing to the log file, whatever the parameter id and
    value. *)
Theorem parameter_commands_dropped_by_device
    (parameter_id parameter_value : Z) (c : Client)
    (m : list Z) (d : device.Device) :
  In m (emitted (send_set_parameter parameter_id parameter_value) c) \/
  In m (emitted (send_get_parameter parameter_id) c) ->
  fst (device.on_midi_message m d) = Returned tt /\
  device.out_sent (snd (device.on_midi_message m d)) = device.out_sent d /\
  device.log_file (snd (device.on_midi_message m d)) = device.log_file d.
Proof.
  intros [H|H]; apply emitted_member in H; subst m.
  - apply (DeviceMore.addressed_frame_dropped
             COMMAND_SET_PARAMETER [parameter_id; parameter_value] d).
    intros [E _]. discriminate E.
  - apply (DeviceMore.addressed_frame_dropped
             COMMAND_GET_PARAMETER [parameter_id] d).
    intros [E _]. discriminate E.
Qed.

Lemma parameter_commands_dropped_by_device_witness :
  let c := __init__ "MockTestClient"
             (fresh_port [] never_raises) (fresh_port [] never_raises) in
  let m := [0xF0; 0x7D; 0x01; 0x01; 0x10; 0x5A; 0xF7] in
  In m (emitted (send_set_parameter 0x10 0x5A) c) /\
  device.out_sent (snd (device.on_midi_message m device.started)) = [].
Proof.
  intros c m.
  assert (H : In m (emitted (send_set_parameter 0x10 0x5A) c))
    by (left; reflexivity).
  split; [exact H | ].
  apply (proj1 (proj2 (parameter_commands_dropped_by_device
                         0x10 0x5A c m device.started (or_introl H)))).
Defined.

(** X29: what the device answers to the client's TriggerAction.  On a
    device whose log file can be written and whose output port is open and
    accepts the message, the frame [send_trigger_action] hands to the MIDI
    library is sent back unchanged when the action id is 0x01, and is not
    answered for any other action id. *)
Theorem client_trigger_action_echoed_iff_log_action
    (action_id : Z) (c : Client) (m : list Z) (d : device.Device) :
  device.log_fault d = None ->
  device.out_open d = true ->
  device.out_fault d = None ->
  In m (emitted (send_trigger_action action_id) c) ->
  fst (device.on_midi_message m d) = Returned tt /\
  device.out_sent (snd (device.on_midi_message m d))
  = (device.out_sent d ++ (if action_id =? 0x01 then [m] else []))%list.
Proof.
  intros Hl Ho Hf H. apply emitted_member in H. subst m.
  destruct (Z.eqb_spec action_id 1) as [->|Hne].
  - destruct (DeviceMore.log_action_echoed [] d Hl Ho Hf) as (R & S & _).
    split; [exact R | exact S].
  - destruct (DeviceMore.addressed_frame_dropped
                COMMAND_TRIGGER_ACTION [action_id] d) as (R & S & _).
    + intros [_ E]. injection E as E. contradiction.
    + split; [exact R | ]. rewrite app_nil_r. exact S.
Qed.

Lemma client_trigger_action_echoed_iff_log_action_witness :
  let c := __init__ "MockTestClient"
             (fresh_port [] never_raises) (fresh_port [] never_raises) in
  let m := [0xF0; 0x7D; 0x01; 0x03; 0x05; 0xF7] in
  In m (emitted (send_trigger_action 0x05) c) /\
  device.out_sent (snd (device.on_midi_message m device.started)) = [].
Proof.
  intros c m.
  assert (H : In m (emitted (send_trigger_action 0x05) c))
    by (left; reflexivity).
  split; [exact H | ].
  apply (proj2 (client_trigger_action_echoed_iff_log_action
                  0x05 c m device.started eq_refl eq_refl eq_refl H)).
Defined.

(** X30: the Identity Request round trip.  A client whose output port is
    open hands the frame F0 7E 7F 06 01 F7 to the MIDI library; the device,
    with its output port open and accepting the message, answers it with the
    Identity Reply; and once the client's callback has received that reply
    into an empty inbox, a pop with time to spare returns it and leaves the
    inbox empty.  Time to spare means a positive timeout and a first reading
    inside the loop no more than half the timeout after the starting one, a
    margin with which the comparison comes out the same whether the
    difference of the readings is taken exactly, as here, or rounded to a
    float. *)
Theorem identity_request_round_trip
    (c : Client) (d : device.Device)
    (time_time : nat -> Q) (delivered : nat -> list (list Z))
    (fuel : nat) (timeout_sec : Q) :
  _received_messages c = [] ->
  bound (midi_out c) <> None ->
  device.out_open d = true ->
  device.out_fault d = None ->
  (0 < timeout_sec)%Q ->
  (2 * (time_time 1%nat - time_time 0%nat) <= timeout_sec)%Q ->
  let c1 := snd (send_identity_request c) in
  emitted send_identity_request c = [device.identity_request 0x7F] /\
  device.out_sent (snd (device.on_midi_message
                          (device.identity_request 0x7F) d))
  = (device.out_sent d ++ [device.reply_message])%list /\
  pop_received_message time_time delivered (S fuel) timeout_sec
    (snd (_on_midi_message device.reply_message c1))
  = Some (Some device.reply_message, c1).
Proof.
  intros Hq Hb Ho Hf Hpos Ht c1.
  split; [|split].
  - unfold send_identity_request. rewrite emitted_send_midi_message.
    destruct (bound (midi_out c)); [reflexivity | contradiction].
  - destruct (DeviceFacts.identity_request_step 0x7F d Ho Hf)
      as (_ & _ & _ & S & _). exact S.
  - assert (Hq1 : _received_messages c1 = []).
    { subst c1. destruct c as [nm p_in [names b cs f] ti to inbox].
      cbn in Hq. subst inbox.
      unfold send_identity_request, send_midi_message.
      cbv [bind on_midi_out do_is_port_open do_send_message invoke query ret
           record_call midi_out midi_in calls faulty bound port_names
           client_port_name target_device_in_port_name
           target_device_out_port_name _received_messages fst snd].
      destruct b; [|reflexivity].
      destruct (f (cs ++ [is_port_open])%list (send_message _)); reflexivity. }
    destruct c1 as [nm p_in p_out ti to inbox]. cbn in Hq1. subst inbox.
    unfold pop_received_message. cbn [pop_loop].
    destruct (Qlt_le_dec (time_time 1%nat - time_time 0%nat) timeout_sec)
      as [_|H]; [reflexivity | exfalso; lra].
Qed.

Lemma identity_request_round_trip_witness :
  let c := __init__ "MockTestClient"
             (fresh_port [] never_raises) (fresh_port [] never_raises) in
  let time_time := fun k => (Z.of_nat k # 1000)%Q in
  _received_messages c = [] /\
  bound (midi_out c) <> None /\
  (0 < 1)%Q /\
  (2 * (time_time 1%nat - time_time 0%nat) <= 1)%Q /\
  pop_received_message time_time (fun _ => []) 1 1%Q
    (snd (_on_midi_message device.reply_message
            (snd (send_identity_request c))))
  = Some (Some [0xF0; 0x7E; 0x7F; 0x06; 0x02; 0x7D;
                0x01; 0x01; 0x01; 0x01; 0x01; 0x01; 0x01; 0x01; 0xF7],
          snd (send_identity_request c)).
Proof.
  intros c time_time.
  assert (Hb : bound (midi_out c) <> None) by discriminate.
  assert (Hpos : (0 < 1)%Q) by reflexivity.
  assert (Ht : (2 * (time_time 1%nat - time_time 0%nat) <= 1)%Q)
    by (intros E; discriminate E).
  split; [reflexivity | split; [exact Hb | split; [exact Hpos | split; [exact Ht | ]]]].
  apply (proj2 (proj2 (identity_request_round_trip
                         c device.started time_time (fun _ => []) 0 1%Q
                         eq_refl Hb eq_refl eq_refl Hpos Ht))).
Defined.

End Protocol.
